(** * devops-automation-scripts: cost anomaly report and EKS resource cleanup

    A shallow embedding of [aws_cost_report.py] and
    [eks_resource_cleanup.py], and the properties of their classification,
    remediation and exit-code logic.

    Conventions of the embedding.
    - Amounts come in two models.  In [Cost] a Python [float] is an exact
      rational ([Q]) and [==] is [Qeq]: the model for the properties that
      hold whatever the rounding (order, sign, membership of keys).  In
      [Cost64] a [float] is an IEEE 754 binary64 value with the primitive
      operations, as Python computes: the model for what a threshold test
      decides and for the values that are stored.
    - A Python [dict] is an association list in insertion order whose keys
      are pairwise distinct; [dict_set] keeps the position of a key that is
      already there, as Python does.
    - A function that mutates the report and runs subprocesses threads an
      explicit [run_state]: the report and the trace of delete commands.
      What the subprocesses answer is read from a [world] value.
    - [datetime.fromisoformat] is a parameter.  In [Eks] a parsed timestamp
      is an aware instant, counted in microseconds since the epoch with an
      unbounded integer: the scan as it runs when [datetime] raises
      nothing.  [EksChecked] adds what [datetime] raises, [TypeError] on a
      timestamp without offset and [OverflowError] outside the years 1 to
      9999, and is shown to agree with [Eks] when nothing is raised.
    - Logging is not modelled: it changes neither the report nor the exit
      code. *)

From Stdlib Require Import List String Ascii Bool ZArith QArith Lia.
From Stdlib Require DecimalString.
From Stdlib Require PrimFloat FloatOps Uint63.
From Stdlib Require Import Sorting.Sorted Permutation.
Import ListNotations.

Local Open Scope string_scope.
Local Open Scope list_scope.
Local Open Scope Q_scope.

(* ------------------------------------------------------------------ *)
(** ** Python built-ins used by both scripts *)

(** [x < y] on amounts, as a boolean. *)
Definition Qlt_bool (x y : Q) : bool := negb (Qle_bool y x).

(** [round(x, ndigits)] on an exact amount: the nearest multiple of
    [10^-ndigits], a tie going to the even one.  On a binary64 value Python
    rounds the value the float holds, which is the [round] of [Cost64]. *)
Definition py_round (x : Q) (ndigits : nat) : Q :=
  let scale := Z.pow 10 (Z.of_nat ndigits) in
  let y := x * inject_Z scale in
  let n := Qnum y in
  let d := Zpos (Qden y) in
  let fl := (n / d)%Z in
  let r := (n mod d)%Z in
  let z := match (2 * r ?= d)%Z with
           | Lt => fl
           | Gt => (fl + 1)%Z
           | Eq => if Z.even fl then fl else (fl + 1)%Z
           end in
  Qmake z (Z.to_pos scale).

(** An insertion-ordered dictionary with string keys. *)
Definition dict (V : Type) : Type := list (string * V).

Fixpoint dict_lookup {V} (d : dict V) (k : string) : option V :=
  match d with
  | [] => None
  | (k', v) :: rest => if String.eqb k' k then Some v else dict_lookup rest k
  end.

(** [d.get(k, default)] *)
Definition dict_get {V} (d : dict V) (k : string) (default : V) : V :=
  match dict_lookup d k with
  | Some v => v
  | None => default
  end.

(** [d[k] = v]: an existing key keeps its place, a new key goes last. *)
Fixpoint dict_set {V} (d : dict V) (k : string) (v : V) : dict V :=
  match d with
  | [] => [(k, v)]
  | (k', v') :: rest =>
      if String.eqb k' k then (k', v) :: rest else (k', v') :: dict_set rest k v
  end.

Definition dict_keys {V} (d : dict V) : list string := map fst d.

(** [sorted(l, key=key, reverse=True)]: a stable sort into descending key
    order.  An element is inserted in front of the sorted tail and moves
    right only past keys strictly greater than its own, so elements with
    equal keys keep their relative order. *)
Fixpoint insert_desc {A} (key : A -> Q) (x : A) (l : list A) : list A :=
  match l with
  | [] => [x]
  | y :: l' =>
      if Qlt_bool (key x) (key y) then y :: insert_desc key x l' else x :: l
  end.

Fixpoint sorted_desc {A} (key : A -> Q) (l : list A) : list A :=
  match l with
  | [] => []
  | x :: l' => insert_desc key x (sorted_desc key l')
  end.

(** [l1] is [l2] with some elements left out, the order kept. *)
Inductive subsequence {A} : list A -> list A -> Prop :=
| subseq_nil : subsequence [] []
| subseq_skip : forall x l1 l2, subsequence l1 l2 -> subsequence l1 (x :: l2)
| subseq_take : forall x l1 l2, subsequence l1 l2 -> subsequence (x :: l1) (x :: l2).

(** [x] comes before [y] in [l]. *)
Definition precedes {A} (x y : A) (l : list A) : Prop :=
  exists l1 l2 l3, l = l1 ++ x :: l2 ++ y :: l3.

(* ------------------------------------------------------------------ *)
(** ** aws_cost_report.py *)

Module Cost.

(** The [reason] text of an anomaly: a fixed text for a new service, and a
    text built from the unrounded percentage for an increase. *)
Inductive reason : Type :=
| New_service_with_spend
| Cost_increased_by (change_pct : Q).

(** An entry of the [anomalies] list. *)
Record anomaly : Type := mk_anomaly {
  service : string;
  current : Q;
  previous : Q;
  change_pct : Q;
  why : reason
}.

(** One group of the Cost Explorer response: [Keys[0]] and the amount. *)
Definition cost_group : Type := (string * Q)%type.

(** The loop of [get_monthly_cost_by_service] filling [costs]. *)
Fixpoint collect_costs (groups : list cost_group) (costs : dict Q) : dict Q :=
  match groups with
  | [] => costs
  | (service, amount) :: rest =>
      if Qlt_bool (1 # 100) amount
      then collect_costs rest (dict_set costs service (py_round amount 2))
      else collect_costs rest costs
  end.

Definition get_monthly_cost_by_service (groups : list cost_group) : dict Q :=
  sorted_desc snd (collect_costs groups []).

(** The loop of [detect_anomalies] over [current.items()], appending to
    [anomalies], in exact arithmetic; [Cost64.detect_loop] is the same loop
    in binary64. *)
Fixpoint detect_loop (items : list (string * Q)) (previous : dict Q)
    (threshold_pct : Q) (anomalies : list anomaly) : list anomaly :=
  match items with
  | [] => anomalies
  | (service, current_cost) :: rest =>
      let previous_cost := dict_get previous service 0 in
      if Qeq_bool previous_cost 0 then
        if Qlt_bool 10 current_cost then
          detect_loop rest previous threshold_pct
            (anomalies ++ [mk_anomaly service current_cost previous_cost 100
                                      New_service_with_spend])
        else detect_loop rest previous threshold_pct anomalies
      else
        let change_pct := ((current_cost - previous_cost) / previous_cost) * 100 in
        if Qle_bool threshold_pct change_pct then
          detect_loop rest previous threshold_pct
            (anomalies ++ [mk_anomaly service current_cost previous_cost
                                      (py_round change_pct 1)
                                      (Cost_increased_by change_pct)])
        else detect_loop rest previous threshold_pct anomalies
  end.

Definition detect_anomalies (current previous : dict Q) (threshold_pct : Q)
    : list anomaly :=
  sorted_desc change_pct (detect_loop current previous threshold_pct []).

(** What one item of [current] adds to [anomalies]: the body of the loop. *)
Definition anomalies_of_item (previous : dict Q) (threshold_pct : Q)
    (item : string * Q) : list anomaly :=
  detect_loop [item] previous threshold_pct [].

(** The two Cost Explorer answers of a run: the groups of the first result,
    or [None] when the client raises (nothing in the script catches it). *)
Record world : Type := {
  current_response : option (list cost_group);
  previous_response : option (list cost_group)
}.

(** How a run ends: with a traceback, or with the report printed (and the
    anomalies posted and logged), after which [main] returns. *)
Inductive outcome : Type :=
| Uncaught_exception (exit_code : Z)
| Reported (current_costs previous_costs : dict Q) (anomalies : list anomaly)
           (exit_code : Z).

Definition main (anomaly_threshold : Q) (w : world) : outcome :=
  match current_response w with
  | None => Uncaught_exception 1
  | Some current_groups =>
      let current_costs := get_monthly_cost_by_service current_groups in
      match previous_response w with
      | None => Uncaught_exception 1
      | Some previous_groups =>
          let previous_costs := get_monthly_cost_by_service previous_groups in
          let anomalies := detect_anomalies current_costs previous_costs anomaly_threshold in
          Reported current_costs previous_costs anomalies 0
      end
  end.

(** The rule for a key with no baseline, or a zero one, as a property of
    the anomaly it yields. *)
Definition new_rule (previous : dict Q) (a : anomaly) : Prop :=
  (dict_lookup previous (service a) = None
   \/ exists p, dict_lookup previous (service a) = Some p /\ p == 0)
  /\ 10 < current a
  /\ change_pct a = 100
  /\ why a = New_service_with_spend.

(** The rule for a key with a non-zero baseline. *)
Definition increase_rule (previous : dict Q) (threshold_pct : Q) (a : anomaly)
    : Prop :=
  exists p, dict_lookup previous (service a) = Some p /\ ~ p == 0
  /\ threshold_pct <= (current a - p) / p * 100
  /\ change_pct a = py_round ((current a - p) / p * 100) 1
  /\ why a = Cost_increased_by ((current a - p) / p * 100).

End Cost.

(* ------------------------------------------------------------------ *)
(** ** eks_resource_cleanup.py *)

Module Eks.

(** [o.get(key, default)] on a field that may be missing. *)
Definition get_or {A} (o : option A) (default : A) : A :=
  match o with
  | Some a => a
  | None => default
  end.

(** *** The records of the [kubectl ... -o json] listings.

    A field read with [x["key"]] is mandatory; a field read with
    [x.get("key", default)] is optional. *)

Record waiting_state : Type := { waiting_reason : option string }.

Record container_state : Type := { state_waiting : option waiting_state }.

Record container_status : Type := {
  cs_name : string;
  cs_state : option container_state;
  cs_restartCount : option Z
}.

Record pod_status : Type := { containerStatuses : option (list container_status) }.

Record pod : Type := {
  pod_namespace : string;
  pod_name : string;
  pod_status_of : option pod_status
}.

Record job_condition : Type := { cond_type : option string }.

Record job_status : Type := { conditions : option (list job_condition) }.

Record job : Type := {
  job_namespace : string;
  job_name : string;
  job_status_of : option job_status;
  creationTimestamp : option string
}.

(** *** The report *)

(** An entry of [report.crashloop_pods]. *)
Record pod_entry : Type := mk_pod_entry {
  pe_namespace : string;
  pe_pod : string;
  pe_container : string;
  pe_reason : string;
  pe_restarts : Z
}.

(** An entry of [report.completed_jobs]. *)
Record job_entry : Type := mk_job_entry {
  je_namespace : string;
  je_job : string;
  je_created : string
}.

Record CleanupReport : Type := mk_report {
  crashloop_pods : list pod_entry;
  stale_namespaces : list string;
  completed_jobs : list job_entry;
  actions_taken : list string;
  errors : list string
}.

Definition empty_report : CleanupReport := mk_report [] [] [] [] [].

(** The report together with the [kubectl delete] command lines run so far,
    oldest first. *)
Record run_state : Type := mk_state {
  report : CleanupReport;
  deletes : list (list string)
}.

Definition initial_state : run_state := mk_state empty_report [].

Definition append_crashloop_pod (e : pod_entry) (st : run_state) : run_state :=
  let r := report st in
  mk_state (mk_report (crashloop_pods r ++ [e]) (stale_namespaces r)
                      (completed_jobs r) (actions_taken r) (errors r))
           (deletes st).

Definition append_completed_job (e : job_entry) (st : run_state) : run_state :=
  let r := report st in
  mk_state (mk_report (crashloop_pods r) (stale_namespaces r)
                      (completed_jobs r ++ [e]) (actions_taken r) (errors r))
           (deletes st).

Definition append_action (msg : string) (st : run_state) : run_state :=
  let r := report st in
  mk_state (mk_report (crashloop_pods r) (stale_namespaces r)
                      (completed_jobs r) (actions_taken r ++ [msg]) (errors r))
           (deletes st).

Definition append_error (msg : string) (st : run_state) : run_state :=
  let r := report st in
  mk_state (mk_report (crashloop_pods r) (stale_namespaces r)
                      (completed_jobs r) (actions_taken r) (errors r ++ [msg]))
           (deletes st).

(** *** The outside world of one run *)

(** What the run meets outside the script: whether [aws eks
    update-kubeconfig] succeeds, what the two listings return ([None]: the
    command failed, its output was not JSON, or the JSON value was falsy;
    [Some items]: the [items] of the listing, empty when the key is
    missing), the clock read by [find_completed_jobs] in microseconds since
    the epoch, and whether a [kubectl delete] command line exits with
    status zero given the delete commands run before it. *)
Record world : Type := {
  kubeconfig_ok : bool;
  list_pods : option (list pod);
  list_jobs : option (list job);
  now : Z;
  delete_exits_zero : list (list string) -> list string -> bool
}.

Definition kubectl_delete_cmd (resource_type name namespace : string)
    (dry_run : bool) : list string :=
  ["kubectl"; "delete"; resource_type; name; "-n"; namespace]
  ++ (if dry_run then ["--dry-run=client"] else []).

(** [kubectl_delete]: runs the command, returns whether it succeeded. *)
Definition kubectl_delete (w : world) (resource_type name namespace : string)
    (dry_run : bool) (st : run_state) : bool * run_state :=
  let cmd := kubectl_delete_cmd resource_type name namespace dry_run in
  (delete_exits_zero w (deletes st) cmd,
   mk_state (report st) (deletes st ++ [cmd])).

(** *** find_crashloop_pods *)

Definition problem_states : list string :=
  ["CrashLoopBackOff"; "Error"; "OOMKilled"; "ImagePullBackOff"].

Definition in_strings (s : string) (l : list string) : bool :=
  existsb (String.eqb s) l.

Definition waiting_reason_of (cs : container_status) : string :=
  match cs_state cs with
  | Some s =>
      match state_waiting s with
      | Some wt => get_or (waiting_reason wt) ""
      | None => ""
      end
  | None => ""
  end.

Definition restart_count_of (cs : container_status) : Z :=
  get_or (cs_restartCount cs) 0%Z.

(** The test of the [if] in the container loop. *)
Definition is_problem (cs : container_status) : bool :=
  let reason := waiting_reason_of cs in
  let restart_count := restart_count_of cs in
  in_strings reason problem_states
  || (String.eqb reason "CrashLoopBackOff" && (5 <? restart_count)%Z).

Definition pod_action_text (namespace name reason : string) : string :=
  ("Deleted pod " ++ namespace ++ "/" ++ name ++ " (" ++ reason ++ ")")%string.

(** The inner loop, over the container statuses of one pod. *)
Fixpoint scan_containers (w : world) (dry_run delete : bool)
    (namespace name : string) (container_statuses : list container_status)
    (st : run_state) : run_state :=
  match container_statuses with
  | [] => st
  | cs :: rest =>
      let reason := waiting_reason_of cs in
      let restart_count := restart_count_of cs in
      if is_problem cs then
        let entry := mk_pod_entry namespace name (cs_name cs) reason restart_count in
        let st := append_crashloop_pod entry st in
        if delete then
          let '(success, st) := kubectl_delete w "pod" name namespace dry_run st in
          if success
          then scan_containers w dry_run delete namespace name rest
                 (append_action (pod_action_text namespace name reason) st)
          else scan_containers w dry_run delete namespace name rest st
        else scan_containers w dry_run delete namespace name rest st
      else scan_containers w dry_run delete namespace name rest st
  end.

Definition container_statuses_of (p : pod) : list container_status :=
  match pod_status_of p with
  | Some s => get_or (containerStatuses s) []
  | None => []
  end.

(** The outer loop, over the pods of the listing. *)
Fixpoint scan_pods (w : world) (dry_run delete : bool) (items : list pod)
    (st : run_state) : run_state :=
  match items with
  | [] => st
  | p :: rest =>
      scan_pods w dry_run delete rest
        (scan_containers w dry_run delete (pod_namespace p) (pod_name p)
           (container_statuses_of p) st)
  end.

Definition find_crashloop_pods (w : world) (st : run_state)
    (dry_run delete : bool) : run_state :=
  match list_pods w with
  | None => append_error "Failed to list pods" st
  | Some items => scan_pods w dry_run delete items st
  end.

(** *** find_completed_jobs *)

(** [s.replace("Z", "+00:00")] *)
Fixpoint replace_Z (s : string) : string :=
  match s with
  | EmptyString => EmptyString
  | String c rest =>
      if Ascii.eqb c "Z"%char then ("+00:00" ++ replace_Z rest)%string
      else String c (replace_Z rest)
  end.

Definition microseconds_per_hour : Z := 3600000000.

Definition is_terminal_type (c : job_condition) : bool :=
  match cond_type c with
  | Some t => in_strings t ["Complete"; "Failed"]
  | None => false
  end.

Definition conditions_of (j : job) : list job_condition :=
  match job_status_of j with
  | Some s => get_or (conditions s) []
  | None => []
  end.

Definition job_action_text (namespace name : string) : string :=
  ("Deleted job " ++ namespace ++ "/" ++ name)%string.

Section WithParser.

(** [datetime.fromisoformat]: the instant a timestamp text denotes, in
    microseconds since the epoch, or [None] where Python raises
    [ValueError].  The API server writes timestamps with a UTC designator,
    so a parsed timestamp is an aware one and compares with [cutoff]; the
    runs in which [datetime] raises are in [EksChecked]. *)
Variable fromisoformat : string -> option Z.

(** The loop over the jobs of the listing, as it runs when no comparison
    with [cutoff] raises; [EksChecked.scan_jobs] is the loop with the
    [TypeError]. *)
Fixpoint scan_jobs (w : world) (cutoff : Z) (dry_run delete : bool)
    (items : list job) (st : run_state) : run_state :=
  match items with
  | [] => st
  | j :: rest =>
      let namespace := job_namespace j in
      let name := job_name j in
      let conditions := conditions_of j in
      let creation_time_str := get_or (creationTimestamp j) "" in
      match fromisoformat (replace_Z creation_time_str) with
      | None => scan_jobs w cutoff dry_run delete rest st
      | Some creation_time =>
          let is_complete := existsb is_terminal_type conditions in
          if is_complete && (creation_time <? cutoff)%Z then
            let entry := mk_job_entry namespace name creation_time_str in
            let st := append_completed_job entry st in
            if delete then
              let '(success, st) := kubectl_delete w "job" name namespace dry_run st in
              if success
              then scan_jobs w cutoff dry_run delete rest
                     (append_action (job_action_text namespace name) st)
              else scan_jobs w cutoff dry_run delete rest st
            else scan_jobs w cutoff dry_run delete rest st
          else scan_jobs w cutoff dry_run delete rest st
      end
  end.

(** [find_completed_jobs] when [cutoff] is a datetime;
    [EksChecked.find_completed_jobs] has the [OverflowError]. *)
Definition find_completed_jobs (w : world) (st : run_state)
    (max_age_hours : Z) (dry_run delete : bool) : run_state :=
  match list_jobs w with
  | None => append_error "Failed to list jobs" st
  | Some items =>
      let cutoff := (now w - max_age_hours * microseconds_per_hour)%Z in
      scan_jobs w cutoff dry_run delete items st
  end.

(** *** main *)

Record arguments : Type := {
  dry_run : bool;
  delete_crashloop : bool;
  delete_jobs : bool;
  job_max_age_hours : Z
}.

(** How a run ends: [update_eks_kubeconfig] calls [sys.exit(1)] before any
    report exists, or the report is printed and the process exits. *)
Inductive outcome : Type :=
| Bootstrap_failed (exit_code : Z)
| Reported (st : run_state) (exit_code : Z).

Definition nonempty {A} (l : list A) : bool :=
  match l with
  | [] => false
  | _ :: _ => true
  end.

(** Both scans, as [main] runs them on a fresh report. *)
Definition scan (a : arguments) (w : world) : run_state :=
  let st := find_crashloop_pods w initial_state (dry_run a) (delete_crashloop a) in
  find_completed_jobs w st (job_max_age_hours a) (dry_run a) (delete_jobs a).

Definition main (a : arguments) (w : world) : outcome :=
  if kubeconfig_ok w then
    let st := scan a w in
    if nonempty (crashloop_pods (report st)) || nonempty (errors (report st))
    then Reported st 1
    else Reported st 0
  else Bootstrap_failed 1.

End WithParser.

(** *** The run without its loops

    What the scans find and attempt, written as list functions; the
    theorems below relate the loops to them. *)

(** The entry recorded for a problem container of pod [p]. *)
Definition pod_entry_of (p : pod) (cs : container_status) : pod_entry :=
  mk_pod_entry (pod_namespace p) (pod_name p) (cs_name cs)
               (waiting_reason_of cs) (restart_count_of cs).

Definition pod_findings_of (p : pod) : list pod_entry :=
  map (pod_entry_of p) (filter is_problem (container_statuses_of p)).

Definition pod_findings (listing : option (list pod)) : list pod_entry :=
  flat_map pod_findings_of (get_or listing []).

Definition job_entry_of (j : job) : job_entry :=
  mk_job_entry (job_namespace j) (job_name j) (get_or (creationTimestamp j) "").

(** The test that files a job under [completed_jobs]. *)
Definition is_stale (fromisoformat : string -> option Z) (cutoff : Z) (j : job)
    : bool :=
  match fromisoformat (replace_Z (get_or (creationTimestamp j) "")) with
  | None => false
  | Some creation_time =>
      existsb is_terminal_type (conditions_of j) && (creation_time <? cutoff)%Z
  end.

Definition job_findings (fromisoformat : string -> option Z) (cutoff : Z)
    (listing : option (list job)) : list job_entry :=
  map job_entry_of (filter (is_stale fromisoformat cutoff) (get_or listing [])).

Definition cutoff_of (a : arguments) (w : world) : Z :=
  (now w - job_max_age_hours a * microseconds_per_hour)%Z.

(** A delete attempt: the command line, and the text filed under
    [actions_taken] when the command succeeds. *)
Definition attempt : Type := (list string * string)%type.

Definition pod_attempt (dry_run : bool) (e : pod_entry) : attempt :=
  (kubectl_delete_cmd "pod" (pe_pod e) (pe_namespace e) dry_run,
   pod_action_text (pe_namespace e) (pe_pod e) (pe_reason e)).

Definition job_attempt (dry_run : bool) (e : job_entry) : attempt :=
  (kubectl_delete_cmd "job" (je_job e) (je_namespace e) dry_run,
   job_action_text (je_namespace e) (je_job e)).

(** The attempts made for a list of findings: all of them when the delete
    flag is set, none otherwise. *)
Definition gated {A} (delete : bool) (f : A -> attempt) (findings : list A)
    : list attempt :=
  if delete then map f findings else [].

(** The texts filed for a sequence of attempts made after [history]: one
    for each attempt whose command exits with status zero. *)
Fixpoint recorded (exits_zero : list (list string) -> list string -> bool)
    (history : list (list string)) (attempts : list attempt) : list string :=
  match attempts with
  | [] => []
  | (cmd, text) :: rest =>
      (if exits_zero history cmd then [text] else [])
      ++ recorded exits_zero (history ++ [cmd]) rest
  end.

(** The state after filing findings and making attempts. *)
Definition extend (w : world) (st : run_state) (pods : list pod_entry)
    (jobs : list job_entry) (attempts : list attempt) : run_state :=
  let r := report st in
  mk_state
    (mk_report (crashloop_pods r ++ pods) (stale_namespaces r)
               (completed_jobs r ++ jobs)
               (actions_taken r
                ++ recorded (delete_exits_zero w) (deletes st) attempts)
               (errors r))
    (deletes st ++ map fst attempts).

(** The attempts a run makes, read off the findings of its report. *)
Definition attempts_of (dry_run delete_crashloop delete_jobs : bool)
    (r : CleanupReport) : list attempt :=
  gated delete_crashloop (pod_attempt dry_run) (crashloop_pods r)
  ++ gated delete_jobs (job_attempt dry_run) (completed_jobs r).

Definition listing_errors (pods : option (list pod)) (jobs : option (list job))
    : list string :=
  match pods with Some _ => [] | None => ["Failed to list pods"] end
  ++ match jobs with Some _ => [] | None => ["Failed to list jobs"] end.

(** [w] with another jobs listing. *)
Definition with_jobs (w : world) (listing : option (list job)) : world :=
  {| kubeconfig_ok := kubeconfig_ok w;
     list_pods := list_pods w;
     list_jobs := listing;
     now := now w;
     delete_exits_zero := delete_exits_zero w |}.

(** The identity of a pod or a job in the cluster. *)
Definition pod_id (p : pod) : string * string := (pod_namespace p, pod_name p).

Definition job_id (j : job) : string * string := (job_namespace j, job_name j).

(** The entry names pod [p]. *)
Definition names_pod (p : pod) (e : pod_entry) : bool :=
  String.eqb (pe_namespace e) (pod_namespace p)
  && String.eqb (pe_pod e) (pod_name p).

Definition cmd_eq_dec : forall c1 c2 : list string, {c1 = c2} + {c1 <> c2} :=
  list_eq_dec string_dec.

End Eks.

(* ------------------------------------------------------------------ *)
(** ** Sample runs *)

Module Sample.

Import Eks.

(** A parser that knows one timestamp: midnight of 1 January 2024, UTC. *)
Definition parser (s : string) : option Z :=
  if String.eqb s "2024-01-01T00:00:00+00:00" then Some 1704067200000000%Z
  else None.

Definition waiting (reason : string) : option container_state :=
  Some {| state_waiting := Some {| waiting_reason := Some reason |} |}.

(** A pod with two problem containers and a running one. *)
Definition web : pod :=
  {| pod_namespace := "prod";
     pod_name := "web-1";
     pod_status_of := Some {| containerStatuses := Some
       [ {| cs_name := "app"; cs_state := waiting "CrashLoopBackOff";
            cs_restartCount := Some 8%Z |};
         {| cs_name := "proxy"; cs_state := waiting "ImagePullBackOff";
            cs_restartCount := None |};
         {| cs_name := "metrics";
            cs_state := Some {| state_waiting := None |};
            cs_restartCount := Some 0%Z |} ] |} |}.

Definition complete : job_condition := {| cond_type := Some "Complete" |}.

Definition old_job : job :=
  {| job_namespace := "batch";
     job_name := "report-1";
     job_status_of := Some {| conditions := Some [complete] |};
     creationTimestamp := Some "2024-01-01T00:00:00Z" |}.

Definition undated_job : job :=
  {| job_namespace := "batch";
     job_name := "report-2";
     job_status_of := Some {| conditions := Some [complete] |};
     creationTimestamp := None |}.

Definition never (_ : list (list string)) (_ : list string) : bool := false.

Definition always (_ : list (list string)) (_ : list string) : bool := true.

(** Two days after the sample timestamp. *)
Definition cluster (pods : list pod) (jobs : list job)
    (exits_zero : list (list string) -> list string -> bool) : world :=
  {| kubeconfig_ok := true;
     list_pods := Some pods;
     list_jobs := Some jobs;
     now := 1704240000000000%Z;
     delete_exits_zero := exits_zero |}.

Definition flags (delete_crashloop delete_jobs : bool) : arguments :=
  {| dry_run := false;
     delete_crashloop := delete_crashloop;
     delete_jobs := delete_jobs;
     job_max_age_hours := 24%Z |}.

End Sample.

(* ------------------------------------------------------------------ *)
(** ** aws_cost_report.py, continued: the periods and the two outputs *)

(** The character [\n]. *)
Definition newline : string := String (ascii_of_nat 10) "".

(** [s * n] *)
Fixpoint repeat_string (s : string) (n : nat) : string :=
  match n with
  | O => ""
  | S n' => (s ++ repeat_string s n')%string
  end.

(** [str(n)] for a length. *)
Definition str_nat (n : nat) : string := DecimalString.NilZero.string_of_uint (Nat.to_uint n).

(** [str(n)] for an integer. *)
Definition str_int (n : Z) : string := DecimalString.NilZero.string_of_int (Z.to_int n).

(** [datetime.date], with the operations [main] uses. *)
Module Calendar.

Record date : Type := mk_date { year : Z; month : Z; day : Z }.

Definition is_leap (y : Z) : bool :=
  (y mod 4 =? 0)%Z && (negb (y mod 100 =? 0)%Z || (y mod 400 =? 0)%Z).

Definition days_in_month (y m : Z) : Z :=
  if (m =? 2)%Z then (if is_leap y then 29 else 28)%Z
  else if (m =? 4)%Z || (m =? 6)%Z || (m =? 9)%Z || (m =? 11)%Z then 30%Z
  else 31%Z.

(** The dates [datetime.date] can hold. *)
Definition valid (d : date) : bool :=
  (1 <=? year d)%Z && (year d <=? 9999)%Z
  && (1 <=? month d)%Z && (month d <=? 12)%Z
  && (1 <=? day d)%Z && (day d <=? days_in_month (year d) (month d))%Z.

(** [d.replace(day=n)]; [None] where Python raises [ValueError]. *)
Definition replace_day (d : date) (n : Z) : option date :=
  let d' := mk_date (year d) (month d) n in
  if valid d' then Some d' else None.

(** [d - timedelta(days=1)]; [None] where Python raises [OverflowError]. *)
Definition minus_one_day (d : date) : option date :=
  if (1 <? day d)%Z then Some (mk_date (year d) (month d) (day d - 1))
  else if (1 <? month d)%Z
       then Some (mk_date (year d) (month d - 1)
                          (days_in_month (year d) (month d - 1)))
  else if (1 <? year d)%Z then Some (mk_date (year d - 1) 12 31)
  else None.

Definition digit (n : Z) : string :=
  String (ascii_of_nat (48 + Z.to_nat (n mod 10))) "".

(** [str(d)]: the ISO form, [YYYY-MM-DD]. *)
Definition isoformat (d : date) : string :=
  (digit (year d / 1000) ++ digit (year d / 100) ++ digit (year d / 10)
   ++ digit (year d) ++ "-" ++ digit (month d / 10) ++ digit (month d)
   ++ "-" ++ digit (day d / 10) ++ digit (day d))%string.

End Calendar.

Module CostReport.

Import Cost.

(** The four dates [main] derives from today's date. *)
Record periods : Type := mk_periods {
  first_day_current : Calendar.date;
  today_date : Calendar.date;
  first_day_previous : Calendar.date;
  last_day_previous : Calendar.date
}.

Definition report_periods (today : Calendar.date) : option periods :=
  match Calendar.replace_day today 1 with
  | None => None
  | Some first_day_current =>
      match Calendar.minus_one_day first_day_current with
      | None => None
      | Some last_day_previous =>
          match Calendar.replace_day last_day_previous 1 with
          | None => None
          | Some first_day_previous =>
              Some (mk_periods first_day_current today
                               first_day_previous last_day_previous)
          end
      end
  end.

(** [s.ljust(width)], the padding of [{s:<width}]; service names are taken
    to be ASCII, so that bytes and characters agree. *)
Definition ljust (s : string) (width : nat) : string :=
  (s ++ repeat_string " " (width - String.length s))%string.

(** [sum(d.values())] *)
Definition sum_values (d : dict Q) : Q := fold_left Qplus (map snd d) 0.

Definition nonempty {A} (l : list A) : bool :=
  match l with
  | [] => false
  | _ :: _ => true
  end.

(** [list(current_costs.items())[:15]]: the services the console report
    lists. *)
Definition listed_services (current_costs : dict Q) : list (string * Q) :=
  firstn 15 current_costs.

(** [anomalies[:5]]: the anomalies the Slack message lists. *)
Definition posted_anomalies (anomalies : list anomaly) : list anomaly :=
  firstn 5 anomalies.

Section Formatting.

(** [format(x, spec)] and [str(x)] on a float. *)
Variable format_float : string -> Q -> string.
Variable str_float : Q -> string.

Definition service_line (previous_costs : dict Q) (item : string * Q) : string :=
  let '(service, cost) := item in
  let prev := dict_get previous_costs service 0 in
  let change := cost - prev in
  ("  " ++ ljust service 45 ++ " $" ++ format_float ">8.2f" cost
   ++ "  (" ++ format_float "+.2f" change ++ ")")%string.

Definition anomaly_line (a : anomaly) : string :=
  ("  ! " ++ ljust (service a) 43 ++ " $" ++ format_float ">8.2f" (current a)
   ++ "  (+" ++ str_float (change_pct a) ++ "%)")%string.

(** The [lines] of [format_console_report]. *)
Definition console_lines (current_costs previous_costs : dict Q)
    (anomalies : list anomaly) (current_period previous_period : string * string)
    : list string :=
  let total_current := sum_values current_costs in
  let total_previous := sum_values previous_costs in
  let total_change := total_current - total_previous in
  let total_change_pct :=
    if Qeq_bool total_previous 0 then 0
    else (total_change / total_previous) * 100 in
  let lines :=
    [ "";
      repeat_string "=" 65;
      "  AWS Monthly Cost Report";
      ("  Current period : " ++ fst current_period ++ " → "
       ++ snd current_period)%string;
      ("  Previous period: " ++ fst previous_period ++ " → "
       ++ snd previous_period)%string;
      repeat_string "=" 65;
      ("  Total (current) : $" ++ format_float ",.2f" total_current)%string;
      ("  Total (previous): $" ++ format_float ",.2f" total_previous)%string;
      ("  Change          : $" ++ format_float "+,.2f" total_change
       ++ " (" ++ format_float "+.1f" total_change_pct ++ "%)")%string;
      repeat_string "=" 65;
      "";
      "  Top Services by Cost:";
      "" ] in
  let lines :=
    lines ++ map (service_line previous_costs) (listed_services current_costs) in
  let lines :=
    if nonempty anomalies then
      (lines
       ++ [ "";
            ("  ⚠  Cost Anomalies Detected ("
             ++ str_nat (List.length anomalies) ++ "):")%string;
            "" ])
      ++ map anomaly_line anomalies
    else lines in
  lines ++ [repeat_string "=" 65].

Definition format_console_report (current_costs previous_costs : dict Q)
    (anomalies : list anomaly) (current_period previous_period : string * string)
    : string :=
  String.concat newline
    (console_lines current_costs previous_costs anomalies
                   current_period previous_period).

Definition slack_line (a : anomaly) : string :=
  ("• " ++ service a ++ ": $" ++ format_float ".2f" (current a)
   ++ " (+" ++ str_float (change_pct a) ++ "%)")%string.

(** The [text] of the payload of [post_to_slack]. *)
Definition slack_text (total : Q) (anomalies : list anomaly)
    (period : string * string) : string :=
  let anomaly_text :=
    if nonempty anomalies then
      (newline ++ newline ++ "*⚠ Cost Anomalies:*" ++ newline
       ++ String.concat newline (map slack_line (posted_anomalies anomalies)))%string
    else "" in
  ("*AWS Cost Report — " ++ fst period ++ " to " ++ snd period ++ "*"
   ++ newline ++ "Total spend this period: *$" ++ format_float ",.2f" total
   ++ "*" ++ anomaly_text)%string.

(** [post_to_slack]: the request it sends, as the URL and the text, or
    [None] when it returns without sending.  Whether the request succeeds
    is logged only. *)
Definition post_to_slack (webhook_url : option string) (total : Q)
    (anomalies : list anomaly) (period : string * string)
    : option (string * string) :=
  match webhook_url with
  | None => None
  | Some url =>
      if String.eqb url "" then None
      else Some (url, slack_text total anomalies period)
  end.

(** What a run of [main] puts out. *)
Inductive run_result : Type :=
| Raised
| Printed (console : string) (slack : option (string * string))
          (anomalies : list anomaly) (exit_code : Z).

(** [main] with its outputs: the periods from today's date, the two
    snapshots, the anomalies, the printed report and the Slack request. *)
Definition run (anomaly_threshold : Q) (slack_webhook : option string)
    (today : Calendar.date) (w : world) : run_result :=
  match report_periods today with
  | None => Raised
  | Some p =>
      let current_start := Calendar.isoformat (first_day_current p) in
      let current_end := Calendar.isoformat (today_date p) in
      let prev_start := Calendar.isoformat (first_day_previous p) in
      let prev_end := Calendar.isoformat (last_day_previous p) in
      match current_response w with
      | None => Raised
      | Some current_groups =>
          let current_costs := get_monthly_cost_by_service current_groups in
          match previous_response w with
          | None => Raised
          | Some previous_groups =>
              let previous_costs := get_monthly_cost_by_service previous_groups in
              let anomalies :=
                detect_anomalies current_costs previous_costs anomaly_threshold in
              let report :=
                format_console_report current_costs previous_costs anomalies
                  (current_start, current_end) (prev_start, prev_end) in
              let total := sum_values current_costs in
              Printed report
                (post_to_slack slack_webhook total anomalies
                   (current_start, current_end))
                anomalies 0
          end
      end
  end.

End Formatting.

End CostReport.

(* ------------------------------------------------------------------ *)
(** ** eks_resource_cleanup.py, continued: the printed report *)

Module EksReport.

Import Eks.

Definition pod_line (e : pod_entry) : string :=
  ("  - [" ++ pe_namespace e ++ "] " ++ pe_pod e ++ " (" ++ pe_reason e
   ++ ", restarts: " ++ str_int (pe_restarts e) ++ ")")%string.

Definition job_line (e : job_entry) : string :=
  ("  - [" ++ je_namespace e ++ "] " ++ je_job e ++ " (created: "
   ++ je_created e ++ ")")%string.

(** A section of the report: nothing for an empty list, else a title and a
    line for each element. *)
Definition section {A} (title : string) (line : A -> string) (l : list A)
    : list string :=
  match l with
  | [] => []
  | _ :: _ => (newline ++ title)%string :: map line l
  end.

(** [print_report]: the arguments of its [print] calls, in order. *)
Definition print_report (r : CleanupReport) : list string :=
  let separator := repeat_string "=" 60 in
  [ (newline ++ separator)%string;
    "  EKS Resource Cleanup Report";
    separator;
    ("  CrashLoop/Error Pods Found : "
     ++ str_nat (List.length (crashloop_pods r)))%string;
    ("  Stale Jobs Found           : "
     ++ str_nat (List.length (completed_jobs r)))%string;
    ("  Actions Taken              : "
     ++ str_nat (List.length (actions_taken r)))%string;
    ("  Errors                     : "
     ++ str_nat (List.length (errors r)))%string;
    separator ]
  ++ section "Problem Pods:" pod_line (crashloop_pods r)
  ++ section "Stale Jobs:" job_line (completed_jobs r)
  ++ section "Actions Taken:" (fun action => ("  ✓ " ++ action)%string)
       (actions_taken r)
  ++ section "Errors:" (fun error => ("  ✗ " ++ error)%string) (errors r)
  ++ [separator].

(** The exit code of a run. *)
Definition exit_code_of (o : outcome) : Z :=
  match o with
  | Bootstrap_failed exit_code => exit_code
  | Reported _ exit_code => exit_code
  end.

(** The arguments with both delete flags off. *)
Definition without_delete (a : arguments) : arguments :=
  {| dry_run := dry_run a;
     delete_crashloop := false;
     delete_jobs := false;
     job_max_age_hours := job_max_age_hours a |}.

(** The arguments with another maximum age. *)
Definition with_max_age (a : arguments) (hours : Z) : arguments :=
  {| dry_run := dry_run a;
     delete_crashloop := delete_crashloop a;
     delete_jobs := delete_jobs a;
     job_max_age_hours := hours |}.

(** The arguments with another dry-run flag. *)
Definition with_dry_run (a : arguments) (flag : bool) : arguments :=
  {| dry_run := flag;
     delete_crashloop := delete_crashloop a;
     delete_jobs := delete_jobs a;
     job_max_age_hours := job_max_age_hours a |}.

End EksReport.

(* ------------------------------------------------------------------ *)
(** ** aws_cost_report.py in binary64

    The same functions with amounts as IEEE 754 binary64 values, as Python
    computes them: [-], [/], [*] and the comparisons are the primitive
    operations on [float].  The built-in [round] is a parameter. *)

Module Cost64.

Import PrimFloat.

#[local] Set Warnings "-inexact-float".

(** [sorted(l, key=key, reverse=True)] with floating-point keys: the stable
    insertion of [sorted_desc], comparing with the binary64 [<]. *)
Fixpoint insert_desc {A} (key : A -> float) (x : A) (l : list A) : list A :=
  match l with
  | [] => [x]
  | y :: l' =>
      if (key x <? key y)%float then y :: insert_desc key x l' else x :: l
  end.

Fixpoint sorted_desc {A} (key : A -> float) (l : list A) : list A :=
  match l with
  | [] => []
  | x :: l' => insert_desc key x (sorted_desc key l')
  end.

Inductive reason : Type :=
| New_service_with_spend
| Cost_increased_by (change_pct : float).

Record anomaly : Type := mk_anomaly {
  service : string;
  current : float;
  previous : float;
  change_pct : float;
  why : reason
}.

Definition cost_group : Type := (string * float)%type.

Section WithRound.

(** [round(x, ndigits)] on a float. *)
Variable round : float -> nat -> float.

Fixpoint collect_costs (groups : list cost_group) (costs : dict float)
    : dict float :=
  match groups with
  | [] => costs
  | (service, amount) :: rest =>
      if (0.01 <? amount)%float
      then collect_costs rest (dict_set costs service (round amount 2))
      else collect_costs rest costs
  end.

Definition get_monthly_cost_by_service (groups : list cost_group) : dict float :=
  sorted_desc snd (collect_costs groups []).

Fixpoint detect_loop (items : list (string * float)) (previous : dict float)
    (threshold_pct : float) (anomalies : list anomaly) : list anomaly :=
  match items with
  | [] => anomalies
  | (service, current_cost) :: rest =>
      let previous_cost := dict_get previous service 0%float in
      if (previous_cost =? 0)%float then
        if (10 <? current_cost)%float then
          detect_loop rest previous threshold_pct
            (anomalies ++ [mk_anomaly service current_cost previous_cost
                                      100%float New_service_with_spend])
        else detect_loop rest previous threshold_pct anomalies
      else
        let change_pct :=
          (((current_cost - previous_cost) / previous_cost) * 100)%float in
        if (threshold_pct <=? change_pct)%float then
          detect_loop rest previous threshold_pct
            (anomalies ++ [mk_anomaly service current_cost previous_cost
                                      (round change_pct 1)
                                      (Cost_increased_by change_pct)])
        else detect_loop rest previous threshold_pct anomalies
  end.

Definition detect_anomalies (current previous : dict float)
    (threshold_pct : float) : list anomaly :=
  sorted_desc change_pct (detect_loop current previous threshold_pct []).

(** What one item of [current] adds to [anomalies]. *)
Definition anomalies_of_item (previous : dict float) (threshold_pct : float)
    (item : string * float) : list anomaly :=
  detect_loop [item] previous threshold_pct [].

(** The percentage as the loop computes it. *)
Definition percent_change (current_cost previous_cost : float) : float :=
  (((current_cost - previous_cost) / previous_cost) * 100)%float.

(** The rule for a key with no baseline, or a zero one (of either sign). *)
Definition new_rule (previous : dict float) (a : anomaly) : Prop :=
  (dict_lookup previous (service a) = None
   \/ exists p, dict_lookup previous (service a) = Some p
                /\ (p =? 0)%float = true)
  /\ (10 <? current a)%float = true
  /\ change_pct a = 100%float
  /\ why a = New_service_with_spend.

(** The rule for a key with a baseline that is not zero. *)
Definition increase_rule (previous : dict float) (threshold_pct : float)
    (a : anomaly) : Prop :=
  exists p, dict_lookup previous (service a) = Some p
  /\ (p =? 0)%float = false
  /\ (threshold_pct <=? percent_change (current a) p)%float = true
  /\ change_pct a = round (percent_change (current a) p) 1
  /\ why a = Cost_increased_by (percent_change (current a) p).

End WithRound.

(** A [round] for sample runs: the decimal nearest to the exact value of
    the float, a tie going to the even digit, then the float nearest to
    that decimal.  Values whose scaled magnitude reaches [2^53] have no
    digit to round and are returned as they are. *)
Definition py_round64 (x : float) (ndigits : nat) : float :=
  match FloatOps.Prim2SF x with
  | SpecFloat.S754_finite s m e =>
      let scale := (10 ^ Z.of_nat ndigits)%Z in
      let num := (Zpos m * scale * (if 0 <=? e then 2 ^ e else 1))%Z in
      let den := (if 0 <=? e then 1 else 2 ^ (- e))%Z in
      let fl := (num / den)%Z in
      let r := (num mod den)%Z in
      let z := match (2 * r ?= den)%Z with
               | Lt => fl
               | Gt => (fl + 1)%Z
               | Eq => if Z.even fl then fl else (fl + 1)%Z
               end in
      if (z <? 2 ^ 53)%Z then
        let v := (of_uint63 (Uint63.of_Z z) / of_uint63 (Uint63.of_Z scale))%float in
        if s then (- v)%float else v
      else x
  | _ => x
  end.

End Cost64.

(* ------------------------------------------------------------------ *)
(** ** eks_resource_cleanup.py with the exceptions of [datetime]

    The job scan once more, now with what [datetime] raises: a parsed
    timestamp is aware or naive, comparing a naive one with the aware
    [cutoff] raises [TypeError], and [timedelta] and the subtraction raise
    [OverflowError] outside their ranges.  Neither is caught by the script,
    so the run ends there with a traceback and exit status 1. *)

Module Datetime.

(** A [datetime]: microseconds since the epoch, of the instant for an
    aware one and of the wall-clock reading for a naive one. *)
Record datetime : Type := mk_datetime { micros : Z; aware : bool }.

(** [datetime.min] and [datetime.max]: the years 1 to 9999. *)
Definition min_micros : Z := (-62135596800000000)%Z.

Definition max_micros : Z := 253402300799999999%Z.

Definition max_timedelta_days : Z := 999999999%Z.

(** [timedelta(hours=h)], in microseconds; [None] where Python raises
    [OverflowError] (more than 999999999 days). *)
Definition timedelta_hours (h : Z) : option Z :=
  let days := (h * 3600 / 86400)%Z in
  if (- max_timedelta_days <=? days)%Z && (days <=? max_timedelta_days)%Z
  then Some (h * 3600000000)%Z
  else None.

(** [t - delta] on a datetime; [None] where Python raises [OverflowError]
    (a year outside 1 to 9999). *)
Definition minus (t delta : Z) : option Z :=
  let r := (t - delta)%Z in
  if (min_micros <=? r)%Z && (r <=? max_micros)%Z then Some r else None.

End Datetime.

Module EksChecked.

Import Eks.

Inductive exn : Type :=
| TypeError
| OverflowError.

(** How a function ends: it returns, or it raises; either way with the
    report and the delete commands as they are at that point. *)
Inductive result : Type :=
| Returned (st : run_state)
| Raised (e : exn) (st : run_state).

Definition state_of (r : result) : run_state :=
  match r with
  | Returned st => st
  | Raised _ st => st
  end.

Section WithParser.

(** [datetime.fromisoformat]; [None] where Python raises [ValueError]. *)
Variable fromisoformat : string -> option Datetime.datetime.

(** The loop over the jobs of the listing. *)
Fixpoint scan_jobs (w : world) (cutoff : Z) (dry_run delete : bool)
    (items : list job) (st : run_state) : result :=
  match items with
  | [] => Returned st
  | j :: rest =>
      let namespace := job_namespace j in
      let name := job_name j in
      let conditions := conditions_of j in
      let creation_time_str := get_or (creationTimestamp j) "" in
      match fromisoformat (replace_Z creation_time_str) with
      | None => scan_jobs w cutoff dry_run delete rest st
      | Some creation_time =>
          let is_complete := existsb is_terminal_type conditions in
          if is_complete then
            if Datetime.aware creation_time then
              if (Datetime.micros creation_time <? cutoff)%Z then
                let entry := mk_job_entry namespace name creation_time_str in
                let st := append_completed_job entry st in
                if delete then
                  let '(success, st) :=
                    kubectl_delete w "job" name namespace dry_run st in
                  if success
                  then scan_jobs w cutoff dry_run delete rest
                         (append_action (job_action_text namespace name) st)
                  else scan_jobs w cutoff dry_run delete rest st
                else scan_jobs w cutoff dry_run delete rest st
              else scan_jobs w cutoff dry_run delete rest st
            else Raised TypeError st
          else scan_jobs w cutoff dry_run delete rest st
      end
  end.

(** [datetime.now(timezone.utc) - timedelta(hours=max_age_hours)] *)
Definition cutoff_of (w : world) (max_age_hours : Z) : option Z :=
  match Datetime.timedelta_hours max_age_hours with
  | None => None
  | Some delta => Datetime.minus (now w) delta
  end.

Definition find_completed_jobs (w : world) (st : run_state)
    (max_age_hours : Z) (dry_run delete : bool) : result :=
  match list_jobs w with
  | None => Returned (append_error "Failed to list jobs" st)
  | Some items =>
      match cutoff_of w max_age_hours with
      | None => Raised OverflowError st
      | Some cutoff => scan_jobs w cutoff dry_run delete items st
      end
  end.

(** How a run ends: as in [Eks.outcome], or with an uncaught exception
    and exit status 1. *)
Inductive outcome : Type :=
| Bootstrap_failed (exit_code : Z)
| Reported (st : run_state) (exit_code : Z)
| Uncaught (e : exn) (st : run_state) (exit_code : Z).

(** Both scans, as [main] runs them on a fresh report. *)
Definition scan (a : arguments) (w : world) : result :=
  let st := find_crashloop_pods w initial_state (dry_run a) (delete_crashloop a) in
  find_completed_jobs w st (job_max_age_hours a) (dry_run a) (delete_jobs a).

Definition main (a : arguments) (w : world) : outcome :=
  if kubeconfig_ok w then
    match scan a w with
    | Raised e st => Uncaught e st 1
    | Returned st =>
        if nonempty (crashloop_pods (report st)) || nonempty (errors (report st))
        then Reported st 1
        else Reported st 0
    end
  else Bootstrap_failed 1.

(** The instant a timestamp text denotes, whatever its kind. *)
Definition instant_of (s : string) : option Z :=
  option_map Datetime.micros (fromisoformat s).

(** The job is one on which the comparison with [cutoff] raises: it has a
    terminal condition and its timestamp parses to a naive datetime. *)
Definition compares_naive (j : job) : bool :=
  match fromisoformat (replace_Z (get_or (creationTimestamp j) "")) with
  | None => false
  | Some creation_time =>
      existsb is_terminal_type (conditions_of j)
      && negb (Datetime.aware creation_time)
  end.

(** The job scan of this run raises. *)
Definition job_scan_raises (a : arguments) (w : world) : bool :=
  match list_jobs w with
  | None => false
  | Some items =>
      match cutoff_of w (job_max_age_hours a) with
      | None => true
      | Some _ => existsb compares_naive items
      end
  end.

End WithParser.

Definition exit_code_of (o : outcome) : Z :=
  match o with
  | Bootstrap_failed exit_code => exit_code
  | Reported _ exit_code => exit_code
  | Uncaught _ _ exit_code => exit_code
  end.

End EksChecked.

Module SampleChecked.

Import Eks.

(** A parser that knows midnight of 1 January 2024, with and without an
    offset. *)
Definition parser (s : string) : option Datetime.datetime :=
  if String.eqb s "2024-01-01T00:00:00+00:00"
  then Some (Datetime.mk_datetime 1704067200000000 true)
  else if String.eqb s "2024-01-01T00:00:00"
  then Some (Datetime.mk_datetime 1704067200000000 false)
  else None.

(** A finished job whose timestamp has no offset. *)
Definition offsetless_job : job :=
  {| job_namespace := "batch";
     job_name := "report-3";
     job_status_of := Some {| conditions := Some [Sample.complete] |};
     creationTimestamp := Some "2024-01-01T00:00:00" |}.

Definition max_age (hours : Z) : arguments :=
  {| dry_run := false;
     delete_crashloop := false;
     delete_jobs := false;
     job_max_age_hours := hours |}.

End SampleChecked.

(* ------------------------------------------------------------------ *)
(** ** Facts about the built-ins *)

Section Builtins.

Lemma Qlt_bool_iff (x y : Q) : Qlt_bool x y = true <-> x < y.
Proof.
  unfold Qlt_bool. rewrite negb_true_iff. split; intros H.
  - apply Qnot_le_lt. intros Hle. apply Qle_bool_iff in Hle. congruence.
  - destruct (Qle_bool y x) eqn:E; [|reflexivity].
    apply Qle_bool_iff in E. exfalso. exact (Qlt_not_le _ _ H E).
Qed.

Lemma Qlt_bool_false (x y : Q) : Qlt_bool x y = false <-> y <= x.
Proof.
  unfold Qlt_bool. rewrite negb_false_iff. apply Qle_bool_iff.
Qed.

Lemma Qeq_bool_false (x y : Q) : Qeq_bool x y = false <-> ~ x == y.
Proof.
  split; intros H.
  - intros E. apply Qeq_bool_iff in E. congruence.
  - destruct (Qeq_bool x y) eqn:E; [|reflexivity].
    apply Qeq_bool_iff in E. contradiction.
Qed.

Lemma Qle_bool_false (x y : Q) : Qle_bool x y = false <-> y < x.
Proof.
  rewrite <- Qlt_bool_iff. unfold Qlt_bool. now rewrite negb_true_iff.
Qed.

Context {A : Type} (key : A -> Q).

Lemma insert_desc_perm (x : A) (l : list A) :
  Permutation (x :: l) (insert_desc key x l).
Proof.
  induction l as [|y l IH]; simpl.
  - apply Permutation_refl.
  - destruct (Qlt_bool (key x) (key y)).
    + eapply perm_trans; [apply perm_swap|]. now apply perm_skip.
    + apply Permutation_refl.
Qed.

Lemma sorted_desc_perm (l : list A) : Permutation l (sorted_desc key l).
Proof.
  induction l as [|x l IH]; simpl.
  - constructor.
  - eapply perm_trans; [apply perm_skip, IH | apply insert_desc_perm].
Qed.

Lemma sorted_desc_In (l : list A) (x : A) : In x (sorted_desc key l) <-> In x l.
Proof.
  split; apply Permutation_in;
    [apply Permutation_sym|]; apply sorted_desc_perm.
Qed.

Lemma insert_desc_sorted (x : A) (l : list A) :
  StronglySorted (fun a b => key b <= key a) l ->
  StronglySorted (fun a b => key b <= key a) (insert_desc key x l).
Proof.
  induction l as [|y l IH]; intros Hs; simpl.
  - repeat constructor.
  - inversion Hs as [|? ? Hl Hy]; subst.
    destruct (Qlt_bool (key x) (key y)) eqn:E.
    + constructor; [now apply IH|].
      apply Forall_forall. intros z Hz.
      apply (Permutation_in _ (Permutation_sym (insert_desc_perm x l))) in Hz.
      destruct Hz as [<-|Hz].
      * apply Qlt_bool_iff in E. now apply Qlt_le_weak.
      * rewrite Forall_forall in Hy. now apply Hy.
    + apply Qlt_bool_false in E. constructor; [assumption|].
      constructor; [exact E|].
      rewrite Forall_forall in Hy |- *. intros z Hz.
      eapply Qle_trans; [apply (Hy z Hz) | exact E].
Qed.

Lemma sorted_desc_sorted (l : list A) :
  StronglySorted (fun a b => key b <= key a) (sorted_desc key l).
Proof.
  induction l as [|x l IH]; simpl.
  - constructor.
  - now apply insert_desc_sorted.
Qed.

(** Stability: among the elements whose key equals [v], sorting changes
    nothing. *)
Lemma insert_desc_filter (v : Q) (x : A) (l : list A) :
  filter (fun a => Qeq_bool (key a) v) (insert_desc key x l)
  = filter (fun a => Qeq_bool (key a) v) (x :: l).
Proof.
  induction l as [|y l IH]; [reflexivity|].
  cbn [insert_desc]. destruct (Qlt_bool (key x) (key y)) eqn:E; [|reflexivity].
  cbn [filter] in *. rewrite IH.
  destruct (Qeq_bool (key x) v) eqn:Ex; [|reflexivity].
  destruct (Qeq_bool (key y) v) eqn:Ey; [|reflexivity].
  apply Qeq_bool_iff in Ex, Ey. apply Qlt_bool_iff in E.
  rewrite Ex, Ey in E. exfalso. exact (Qlt_irrefl _ E).
Qed.

Lemma sorted_desc_filter (v : Q) (l : list A) :
  filter (fun a => Qeq_bool (key a) v) (sorted_desc key l)
  = filter (fun a => Qeq_bool (key a) v) l.
Proof.
  induction l as [|x l IH]; [reflexivity|].
  cbn [sorted_desc]. rewrite insert_desc_filter. cbn [filter].
  now rewrite IH.
Qed.

End Builtins.

Section Order.

Context {A : Type}.

Lemma subsequence_refl (l : list A) : subsequence l l.
Proof. induction l; constructor; assumption. Qed.

Lemma subsequence_nil_l (l : list A) : subsequence [] l.
Proof. induction l; constructor; assumption. Qed.

Lemma subsequence_In (l1 l2 : list A) (x : A) :
  subsequence l1 l2 -> In x l1 -> In x l2.
Proof.
  induction 1 as [|y l1 l2 _ IH|y l1 l2 _ IH]; simpl; intuition.
Qed.

Lemma subsequence_NoDup (l1 l2 : list A) :
  subsequence l1 l2 -> NoDup l2 -> NoDup l1.
Proof.
  induction 1 as [|y l1 l2 Hs IH|y l1 l2 Hs IH]; intros Hn.
  - constructor.
  - inversion Hn; subst. now apply IH.
  - inversion Hn as [|? ? Hy Hn']; subst. constructor; [|now apply IH].
    intros Hin. apply Hy. eapply subsequence_In; eassumption.
Qed.

Lemma subsequence_app (l1 l1' l2 l2' : list A) :
  subsequence l1 l2 -> subsequence l1' l2' -> subsequence (l1 ++ l1') (l2 ++ l2').
Proof.
  induction 1 as [|x l1 l2 _ IH|x l1 l2 _ IH]; intros H'; simpl.
  - assumption.
  - apply subseq_skip. now apply IH.
  - apply subseq_take. now apply IH.
Qed.

Lemma subsequence_filter (p : A -> bool) (l : list A) :
  subsequence (filter p l) l.
Proof.
  induction l as [|x l IH]; simpl; [constructor|].
  destruct (p x); constructor; assumption.
Qed.

Lemma subsequence_trans (l1 l2 l3 : list A) :
  subsequence l1 l2 -> subsequence l2 l3 -> subsequence l1 l3.
Proof.
  intros H12 H23. revert l1 H12.
  induction H23 as [|y l2 l3 _ IH|y l2 l3 _ IH]; intros l1 H12.
  - assumption.
  - constructor. now apply IH.
  - inversion H12; subst.
    + apply subseq_skip. now apply IH.
    + apply subseq_take. now apply IH.
Qed.

Lemma precedes_cons (x y z : A) (l : list A) :
  precedes x y l -> precedes x y (z :: l).
Proof.
  intros (l1 & l2 & l3 & ->). now exists (z :: l1), l2, l3.
Qed.

Lemma precedes_head (x y : A) (l : list A) : In y l -> precedes x y (x :: l).
Proof.
  intros Hin. apply in_split in Hin as (l2 & l3 & ->).
  now exists [], l2, l3.
Qed.

Lemma precedes_inv (x y z : A) (l : list A) :
  precedes x y (z :: l) -> (z = x /\ In y l) \/ precedes x y l.
Proof.
  intros (l1 & l2 & l3 & E). destruct l1 as [|z' l1]; simpl in E.
  - injection E as -> ->. left. split; [reflexivity|].
    apply in_or_app. right. now left.
  - injection E as -> ->. right. now exists l1, l2, l3.
Qed.

Lemma subsequence_precedes (l1 l2 : list A) (x y : A) :
  subsequence l1 l2 -> precedes x y l1 -> precedes x y l2.
Proof.
  induction 1 as [|z l1 l2 Hs IH|z l1 l2 Hs IH]; intros Hp.
  - assumption.
  - apply precedes_cons. now apply IH.
  - apply precedes_inv in Hp as [[-> Hin]|Hp].
    + apply precedes_head. eapply subsequence_In; eassumption.
    + apply precedes_cons. now apply IH.
Qed.

Lemma precedes_filter (p : A -> bool) (x y : A) (l : list A) :
  p x = true -> p y = true -> precedes x y l -> precedes x y (filter p l).
Proof.
  intros Hx Hy (l1 & l2 & l3 & ->).
  exists (filter p l1), (filter p l2), (filter p l3).
  rewrite filter_app. cbn [filter]. rewrite Hx.
  rewrite filter_app. cbn [filter]. now rewrite Hy.
Qed.

Lemma precedes_map {B} (f : A -> B) (x y : A) (l : list A) :
  precedes x y l -> precedes (f x) (f y) (map f l).
Proof.
  intros (l1 & l2 & l3 & ->).
  exists (map f l1), (map f l2), (map f l3).
  now rewrite map_app, map_cons, map_app, map_cons.
Qed.

End Order.

(* ------------------------------------------------------------------ *)
(** ** detect_anomalies *)

Section DetectAnomalies.

Import Cost.

Variables (previous : dict Q) (threshold_pct : Q).

Lemma dict_get_lookup {V} (d : dict V) (k : string) (default : V) :
  (dict_lookup d k = None /\ dict_get d k default = default)
  \/ (exists v, dict_lookup d k = Some v /\ dict_get d k default = v).
Proof.
  unfold dict_get. destruct (dict_lookup d k) as [v|]; [right|left]; eauto.
Qed.

Lemma detect_loop_acc (items : list (string * Q)) (anomalies : list anomaly) :
  detect_loop items previous threshold_pct anomalies
  = anomalies ++ flat_map (anomalies_of_item previous threshold_pct) items.
Proof.
  revert anomalies.
  induction items as [|[service current_cost] rest IH]; intros anomalies.
  - simpl. now rewrite app_nil_r.
  - cbn [flat_map]. unfold anomalies_of_item. cbn [detect_loop].
    destruct (Qeq_bool (dict_get previous service 0) 0).
    + destruct (Qlt_bool 10 current_cost); rewrite IH;
        [now rewrite <- app_assoc | reflexivity].
    + destruct (Qle_bool threshold_pct _); rewrite IH;
        [now rewrite <- app_assoc | reflexivity].
Qed.

Lemma detect_anomalies_unsorted (current : dict Q) :
  detect_anomalies current previous threshold_pct
  = sorted_desc change_pct
      (flat_map (anomalies_of_item previous threshold_pct) current).
Proof.
  unfold detect_anomalies. now rewrite detect_loop_acc.
Qed.

Lemma anomalies_of_item_In (k : string) (c : Q) (a : anomaly) :
  In a (anomalies_of_item previous threshold_pct (k, c)) <->
  service a = k /\ current a = c /\ Cost.previous a = dict_get previous k 0
  /\ (new_rule previous a \/ increase_rule previous threshold_pct a).
Proof.
  unfold anomalies_of_item, new_rule, increase_rule. cbn [detect_loop].
  destruct (dict_get_lookup previous k 0) as [[Hl Hg]|[p [Hl Hg]]]; rewrite Hg.
  - (* no baseline *)
    change (Qeq_bool 0 0) with true. cbv iota.
    destruct (Qlt_bool 10 c) eqn:E; cbn [app In].
    + apply Qlt_bool_iff in E. split.
      * intros [<-|[]]. cbn. rewrite Hl. intuition.
      * intros (<- & <- & Hp & [(_ & _ & Hc & Hw)|(p & Hp' & _)]).
        -- left. destruct a; cbn in *. congruence.
        -- congruence.
    + apply Qlt_bool_false in E. split; [intros []|].
      intros (<- & <- & _ & [(_ & Hlt & _)|(p & Hp' & _)]).
      * exact (Qlt_not_le _ _ Hlt E).
      * congruence.
  - destruct (Qeq_bool p 0) eqn:Ez.
    + apply Qeq_bool_iff in Ez.
      destruct (Qlt_bool 10 c) eqn:E; cbn [app In].
      * apply Qlt_bool_iff in E. split.
        -- intros [<-|[]]. cbn. rewrite Hl. intuition eauto.
        -- intros (<- & <- & Hp & [(_ & _ & Hc & Hw)|(p' & Hp' & Hnz & _)]).
           ++ left. destruct a; cbn in *. congruence.
           ++ exfalso. apply Hnz. congruence.
      * apply Qlt_bool_false in E. split; [intros []|].
        intros (<- & <- & _ & [(_ & Hlt & _)|(p' & Hp' & Hnz & _)]).
        -- exact (Qlt_not_le _ _ Hlt E).
        -- apply Hnz. congruence.
    + apply Qeq_bool_false in Ez.
      destruct (Qle_bool threshold_pct ((c - p) / p * 100)) eqn:E; cbn [app In].
      * apply Qle_bool_iff in E. split.
        -- intros [<-|[]]. cbn. rewrite Hl.
           repeat split; try reflexivity. right. exists p. intuition.
        -- intros (<- & <- & Hp & [([Hn|(p' & Hp' & Hz)] & _)|(p' & Hp' & _ & _ & Hc & Hw)]).
           ++ congruence.
           ++ exfalso. apply Ez. congruence.
           ++ left. assert (p' = p) by congruence. subst p'.
              destruct a; cbn in *. congruence.
      * apply Qle_bool_false in E. split; [intros []|].
        intros (<- & <- & _ & [([Hn|(p' & Hp' & Hz)] & _)|(p' & Hp' & _ & Hle & _)]).
        -- congruence.
        -- apply Ez. congruence.
        -- assert (p' = p) by congruence. subst p'.
           exact (Qlt_not_le _ _ E Hle).
Qed.

Lemma anomalies_of_item_service (item : string * Q) :
  subsequence (map service (anomalies_of_item previous threshold_pct item))
              [fst item].
Proof.
  destruct item as [k c]. unfold anomalies_of_item. cbn [detect_loop fst].
  destruct (Qeq_bool _ 0).
  - destruct (Qlt_bool 10 c); cbn;
      [apply subsequence_refl | apply subsequence_nil_l].
  - destruct (Qle_bool _ _); cbn;
      [apply subsequence_refl | apply subsequence_nil_l].
Qed.

Lemma unsorted_services (current : dict Q) :
  subsequence
    (map service (flat_map (anomalies_of_item previous threshold_pct) current))
    (dict_keys current).
Proof.
  induction current as [|item rest IH]; [constructor|].
  cbn [flat_map dict_keys map]. rewrite map_app.
  change (fst item :: map fst rest) with ([fst item] ++ dict_keys rest).
  apply subsequence_app; [apply anomalies_of_item_service | exact IH].
Qed.

End DetectAnomalies.

Section DetectAnomaliesClaims.

Import Cost.

Lemma dict_keys_functional {V} (d : dict V) (k : string) (v v' : V) :
  NoDup (dict_keys d) -> In (k, v) d -> In (k, v') d -> v = v'.
Proof.
  induction d as [|[k0 v0] d IH]; intros Hn Hv Hv'; [contradiction|].
  cbn in Hn. inversion Hn as [|? ? Hk Hn']; subst.
  destruct Hv as [Hv|Hv], Hv' as [Hv'|Hv'].
  - congruence.
  - injection Hv as -> ->. exfalso. apply Hk.
    change k with (fst (k, v')). now apply in_map.
  - injection Hv' as -> ->. exfalso. apply Hk.
    change k with (fst (k, v)). now apply in_map.
  - now apply IH.
Qed.

Lemma detect_anomalies_In (current previous : dict Q) (threshold_pct : Q)
    (a : anomaly) :
  In a (detect_anomalies current previous threshold_pct) <->
  In (service a, Cost.current a) current
  /\ Cost.previous a = dict_get previous (service a) 0
  /\ (new_rule previous a \/ increase_rule previous threshold_pct a).
Proof.
  rewrite detect_anomalies_unsorted, sorted_desc_In, in_flat_map. split.
  - intros ([k c] & Hin & Ha). apply anomalies_of_item_In in Ha.
    destruct Ha as (<- & <- & Hp & Hr). auto.
  - intros (Hin & Hp & Hr). exists (service a, Cost.current a).
    split; [exact Hin|]. apply anomalies_of_item_In. auto.
Qed.

(** C3. The anomalies come out in descending order of their percentage,
    and two anomalies with equal percentages come out in the order of their
    keys in [current]. *)
Theorem detect_anomalies_sorted_stable
    (current previous : dict Q) (threshold_pct : Q) :
  StronglySorted (fun a b : anomaly => change_pct b <= change_pct a)
    (detect_anomalies current previous threshold_pct)
  /\ forall a1 a2 : anomaly,
       change_pct a1 == change_pct a2 ->
       precedes a1 a2 (detect_anomalies current previous threshold_pct) ->
       precedes (service a1) (service a2) (dict_keys current).
Proof.
  split; [apply sorted_desc_sorted|].
  intros a1 a2 Heq Hp.
  set (same := fun a : anomaly => Qeq_bool (change_pct a) (change_pct a2)).
  apply (precedes_filter same) in Hp.
  - rewrite detect_anomalies_unsorted in Hp. unfold same in Hp.
    rewrite sorted_desc_filter in Hp.
    eapply subsequence_precedes; [apply (unsorted_services previous threshold_pct)|].
    apply precedes_map.
    eapply subsequence_precedes; [apply subsequence_filter | exact Hp].
  - now apply Qeq_bool_iff.
  - apply Qeq_bool_iff. reflexivity.
Qed.

(** C6, amended. With a threshold above zero, a key that is in both
    snapshots with equal values gets no anomaly. *)
Theorem zero_change_not_flagged
    (current previous : dict Q) (threshold_pct : Q) (k : string) (c p : Q) :
  NoDup (dict_keys current) ->
  0 < threshold_pct ->
  In (k, c) current ->
  dict_lookup previous k = Some p ->
  p == c ->
  ~ In k (map service (detect_anomalies current previous threshold_pct)).
Proof.
  intros Hn Ht Hc Hp Heq Hin. apply in_map_iff in Hin as (a & Hk & Ha).
  apply detect_anomalies_In in Ha. destruct Ha as (Hin & _ & Hr).
  rewrite Hk in Hin.
  assert (Hca : Cost.current a = c) by (eapply dict_keys_functional; eassumption).
  destruct Hr as [(Hb & Hlt & _)|(p' & Hp' & Hnz & Hle & _)].
  - rewrite Hk, Hp in Hb. destruct Hb as [Hb|(p' & Hp' & Hz)]; [discriminate|].
    injection Hp' as <-. rewrite Hca, <- Heq, Hz in Hlt. discriminate.
  - rewrite Hk, Hp in Hp'. injection Hp' as <-.
    rewrite Hca, <- Heq in Hle.
    assert (Hzero : (p - p) / p * 100 == 0).
    { unfold Qminus, Qdiv. rewrite Qplus_opp_r. now rewrite !Qmult_0_l. }
    rewrite Hzero in Hle. exact (Qlt_not_le _ _ Ht Hle).
Qed.

Lemma zero_change_not_flagged_witness :
  ~ In "S3"
      (map service
         (detect_anomalies [("EC2", 150); ("S3", 40)] [("EC2", 100); ("S3", 40)] 25)).
Proof.
  apply (zero_change_not_flagged _ _ 25 "S3" 40 40).
  - repeat constructor; cbn; intuition discriminate.
  - reflexivity.
  - right. now left.
  - reflexivity.
  - reflexivity.
Defined.

(** C6 fails at threshold zero: the unchanged key is reported, with a
    percentage of zero. *)
Lemma zero_change_flagged_at_threshold_zero :
  let current := [("EC2", 100)] in
  let previous := [("EC2", 100)] in
  In ("EC2", 100) current
  /\ dict_lookup previous "EC2" = Some 100
  /\ 100 == 100
  /\ In "EC2" (map service (detect_anomalies current previous 0)).
Proof.
  cbn zeta. split; [now left|]. split; [reflexivity|]. split; [reflexivity|].
  now left.
Qed.

End DetectAnomaliesClaims.

(* ------------------------------------------------------------------ *)
(** ** The cleanup scans as list functions *)

Section Scans.

Import Eks.

Variable fromisoformat : string -> option Z.

#[local] Arguments kubectl_delete_cmd : simpl never.
#[local] Arguments pod_action_text : simpl never.
#[local] Arguments job_action_text : simpl never.

Lemma recorded_app exits_zero history (l1 l2 : list attempt) :
  recorded exits_zero history (l1 ++ l2)
  = recorded exits_zero history l1
    ++ recorded exits_zero (history ++ map fst l1) l2.
Proof.
  revert history. induction l1 as [|[cmd text] l1 IH]; intros history.
  - cbn. now rewrite app_nil_r.
  - cbn [app recorded map fst]. rewrite IH, <- !app_assoc. reflexivity.
Qed.

Lemma recorded_length exits_zero history (l : list attempt) :
  (List.length (recorded exits_zero history l) <= List.length l)%nat.
Proof.
  revert history. induction l as [|[cmd text] l IH]; intros history; cbn.
  - lia.
  - rewrite length_app. specialize (IH (history ++ [cmd])).
    destruct (exits_zero history cmd); cbn; lia.
Qed.

Lemma recorded_all_succeed exits_zero history (l : list attempt) :
  (forall h c, exits_zero h c = true) ->
  recorded exits_zero history l = map snd l.
Proof.
  intros Hok. revert history.
  induction l as [|[cmd text] l IH]; intros history; cbn; [reflexivity|].
  now rewrite Hok, IH.
Qed.

Lemma recorded_all_fail exits_zero history (l : list attempt) :
  (forall h c, exits_zero h c = false) ->
  recorded exits_zero history l = [].
Proof.
  intros Hko. revert history.
  induction l as [|[cmd text] l IH]; intros history; cbn; [reflexivity|].
  now rewrite Hko, IH.
Qed.

Lemma extend_nothing (w : world) (st : run_state) : extend w st [] [] [] = st.
Proof.
  destruct st as [[cp sn cj act err] del]. unfold extend. cbn.
  now rewrite !app_nil_r.
Qed.

Lemma extend_extend (w : world) (st : run_state)
    (p1 p2 : list pod_entry) (j1 j2 : list job_entry) (a1 a2 : list attempt) :
  extend w (extend w st p1 j1 a1) p2 j2 a2
  = extend w st (p1 ++ p2) (j1 ++ j2) (a1 ++ a2).
Proof.
  unfold extend. cbn. rewrite recorded_app, map_app, !app_assoc. reflexivity.
Qed.

Lemma gated_app {A} (delete : bool) (f : A -> attempt) (l1 l2 : list A) :
  gated delete f (l1 ++ l2) = gated delete f l1 ++ gated delete f l2.
Proof.
  unfold gated. destruct delete; [apply map_app | reflexivity].
Qed.

Lemma scan_containers_extend (w : world) (dry_run delete : bool) (p : pod)
    (container_statuses : list container_status) (st : run_state) :
  scan_containers w dry_run delete (pod_namespace p) (pod_name p)
    container_statuses st
  = let found := map (pod_entry_of p) (filter is_problem container_statuses) in
    extend w st found [] (gated delete (pod_attempt dry_run) found).
Proof.
  cbv zeta. revert st.
  induction container_statuses as [|cs rest IH]; intros st.
  - cbn. unfold gated. destruct delete; cbn; now rewrite extend_nothing.
  - cbn [scan_containers filter]. destruct (is_problem cs) eqn:Ep.
    + cbn [map].
      change (pod_entry_of p cs :: map (pod_entry_of p) (filter is_problem rest))
        with ([pod_entry_of p cs] ++ map (pod_entry_of p) (filter is_problem rest)).
      rewrite gated_app.
      rewrite <- (extend_extend w st [_] _ [] []).
      destruct delete.
      * unfold kubectl_delete. cbn [append_crashloop_pod report deletes gated map].
        destruct (delete_exits_zero w (deletes st) _) eqn:Eok; rewrite IH;
          f_equal; unfold extend, append_action, pod_attempt, pod_entry_of;
          cbn; rewrite Eok; cbn; now rewrite ?app_nil_r.
      * rewrite IH. f_equal. unfold extend, append_crashloop_pod. cbn.
        now rewrite !app_nil_r.
    + apply IH.
Qed.

Lemma scan_pods_extend (w : world) (dry_run delete : bool) (items : list pod)
    (st : run_state) :
  scan_pods w dry_run delete items st
  = let found := flat_map pod_findings_of items in
    extend w st found [] (gated delete (pod_attempt dry_run) found).
Proof.
  cbv zeta. revert st. induction items as [|p rest IH]; intros st.
  - cbn. unfold gated. destruct delete; cbn; now rewrite extend_nothing.
  - cbn [scan_pods flat_map]. rewrite IH, scan_containers_extend. cbv zeta.
    rewrite extend_extend, gated_app. reflexivity.
Qed.

Lemma is_stale_eq (cutoff : Z) (j : job) :
  is_stale fromisoformat cutoff j
  = match fromisoformat (replace_Z (get_or (creationTimestamp j) "")) with
    | None => false
    | Some creation_time =>
        existsb is_terminal_type (conditions_of j) && (creation_time <? cutoff)%Z
    end.
Proof. reflexivity. Qed.

Lemma scan_jobs_extend (w : world) (cutoff : Z) (dry_run delete : bool)
    (items : list job) (st : run_state) :
  scan_jobs fromisoformat w cutoff dry_run delete items st
  = let found := map job_entry_of (filter (is_stale fromisoformat cutoff) items) in
    extend w st [] found (gated delete (job_attempt dry_run) found).
Proof.
  cbv zeta. revert st. induction items as [|j rest IH]; intros st.
  - cbn. unfold gated. destruct delete; cbn; now rewrite extend_nothing.
  - cbn [scan_jobs filter]. rewrite !(is_stale_eq cutoff j).
    destruct (fromisoformat _) as [creation_time|]; [|apply IH].
    destruct (existsb is_terminal_type (conditions_of j) && (creation_time <? cutoff)%Z);
      [|apply IH].
    cbn [map].
    change (job_entry_of j :: map job_entry_of (filter (is_stale fromisoformat cutoff) rest))
      with ([job_entry_of j] ++ map job_entry_of (filter (is_stale fromisoformat cutoff) rest)).
    rewrite gated_app.
    rewrite <- (extend_extend w st [] [] [_] _).
    destruct delete.
    + unfold kubectl_delete. cbn [append_completed_job report deletes gated map].
      destruct (delete_exits_zero w (deletes st) _) eqn:Eok; rewrite IH;
        f_equal; unfold extend, append_action, job_attempt, job_entry_of;
        cbn; rewrite Eok; cbn; now rewrite ?app_nil_r.
    + rewrite IH. f_equal. unfold extend, append_completed_job. cbn.
      now rewrite !app_nil_r.
Qed.

(** The whole run: what is found, what is attempted, what is filed. *)
Lemma scan_fields (a : arguments) (w : world) :
  let pods := pod_findings (list_pods w) in
  let jobs := job_findings fromisoformat (cutoff_of a w) (list_jobs w) in
  let attempts := gated (delete_crashloop a) (pod_attempt (dry_run a)) pods
                  ++ gated (delete_jobs a) (job_attempt (dry_run a)) jobs in
  scan fromisoformat a w
  = mk_state
      (mk_report pods [] jobs
                 (recorded (delete_exits_zero w) [] attempts)
                 (listing_errors (list_pods w) (list_jobs w)))
      (map fst attempts).
Proof.
  cbv zeta. unfold scan, find_crashloop_pods, find_completed_jobs,
    pod_findings, job_findings, listing_errors, cutoff_of.
  destruct (list_pods w) as [pods|], (list_jobs w) as [jobs|]; cbn [get_or].
  - rewrite scan_jobs_extend, scan_pods_extend. cbv zeta.
    rewrite extend_extend. unfold extend, initial_state, empty_report. cbn.
    now rewrite app_nil_r.
  - rewrite scan_pods_extend. cbv zeta.
    unfold extend, append_error, initial_state, empty_report, gated. cbn.
    destruct (delete_jobs a); now rewrite !app_nil_r.
  - rewrite scan_jobs_extend. cbv zeta.
    unfold extend, append_error, initial_state, empty_report, gated. cbn.
    destruct (delete_crashloop a); reflexivity.
  - unfold append_error, initial_state, empty_report, gated. cbn.
    destruct (delete_crashloop a), (delete_jobs a); reflexivity.
Qed.

End Scans.

(* ------------------------------------------------------------------ *)
(** ** The pod and job rules *)

Section Rules.

Import Eks.

Lemma in_strings_iff (s : string) (l : list string) :
  in_strings s l = true <-> In s l.
Proof.
  unfold in_strings. rewrite existsb_exists. split.
  - intros (x & Hx & E). apply String.eqb_eq in E. now subst.
  - intros H. exists s. split; [exact H | apply String.eqb_refl].
Qed.

Lemma is_problem_iff (cs : container_status) :
  is_problem cs = true <->
  In (waiting_reason_of cs)
     ["CrashLoopBackOff"; "Error"; "OOMKilled"; "ImagePullBackOff"]
  \/ (waiting_reason_of cs = "CrashLoopBackOff" /\ (restart_count_of cs > 5)%Z).
Proof.
  unfold is_problem. rewrite orb_true_iff, andb_true_iff, in_strings_iff.
  rewrite String.eqb_eq, Z.ltb_lt. unfold problem_states. intuition lia.
Qed.

Lemma is_terminal_type_iff (c : job_condition) :
  is_terminal_type c = true <->
  cond_type c = Some "Complete" \/ cond_type c = Some "Failed".
Proof.
  unfold is_terminal_type. destruct (cond_type c) as [t|].
  - rewrite in_strings_iff. cbn. split.
    + intros [<-|[<-|[]]]; auto.
    + intros [E|E]; injection E as <-; auto.
  - split; [discriminate | intros [E|E]; discriminate].
Qed.

Lemma replace_Z_empty : replace_Z "" = "".
Proof. reflexivity. Qed.

Lemma NoDup_map_injective {A B} (f : A -> B) (l : list A) (x y : A) :
  NoDup (map f l) -> In x l -> In y l -> f x = f y -> x = y.
Proof.
  induction l as [|z l IH]; intros Hn Hx Hy E; [contradiction|].
  cbn in Hn. inversion Hn as [|? ? Hz Hn']; subst.
  destruct Hx as [->|Hx], Hy as [->|Hy].
  - reflexivity.
  - exfalso. apply Hz. rewrite E. now apply in_map.
  - exfalso. apply Hz. rewrite <- E. now apply in_map.
  - now apply IH.
Qed.

Lemma count_occ_map_filter {A B} (dec : forall b1 b2 : B, {b1 = b2} + {b1 <> b2})
    (f : A -> B) (l : list A) (b : B) :
  count_occ dec (map f l) b
  = List.length (filter (fun x => if dec (f x) b then true else false) l).
Proof.
  induction l as [|x l IH]; [reflexivity|].
  cbn. destruct (dec (f x) b); cbn; now rewrite IH.
Qed.

Lemma names_pod_findings_same (p p' : pod) :
  pod_id p' = pod_id p ->
  filter (names_pod p) (pod_findings_of p') = pod_findings_of p'.
Proof.
  intros E. unfold pod_id in E. injection E as En Em.
  unfold pod_findings_of.
  induction (filter is_problem (container_statuses_of p')) as [|cs l IH];
    [reflexivity|].
  cbn [map filter]. unfold names_pod at 1. cbn [pod_entry_of pe_namespace pe_pod].
  rewrite En, Em, !String.eqb_refl. cbn. now rewrite IH.
Qed.

Lemma names_pod_findings_other (p p' : pod) :
  pod_id p' <> pod_id p ->
  filter (names_pod p) (pod_findings_of p') = [].
Proof.
  intros E. unfold pod_findings_of.
  induction (filter is_problem (container_statuses_of p')) as [|cs l IH];
    [reflexivity|].
  cbn [map filter]. unfold names_pod at 1. cbn [pod_entry_of pe_namespace pe_pod].
  destruct (String.eqb (pod_namespace p') (pod_namespace p)) eqn:En;
    [|exact IH].
  destruct (String.eqb (pod_name p') (pod_name p)) eqn:Em; [|exact IH].
  apply String.eqb_eq in En, Em. exfalso. apply E. unfold pod_id. congruence.
Qed.

Lemma names_pod_count (p : pod) (items : list pod) :
  NoDup (map pod_id items) -> In p items ->
  List.length (filter (names_pod p) (flat_map pod_findings_of items))
  = List.length (filter is_problem (container_statuses_of p)).
Proof.
  induction items as [|p0 rest IH]; intros Hn Hin; [contradiction|].
  cbn in Hn. inversion Hn as [|? ? H0 Hn']; subst.
  cbn [flat_map]. rewrite filter_app, length_app.
  destruct Hin as [->|Hin].
  - rewrite names_pod_findings_same by reflexivity.
    assert (Hrest : filter (names_pod p) (flat_map pod_findings_of rest) = []).
    { clear IH Hn Hn'. induction rest as [|q rest IH]; [reflexivity|].
      cbn [flat_map]. rewrite filter_app, names_pod_findings_other.
      - apply IH. intros Hq. apply H0. now right.
      - intros Hq. apply H0. left. exact Hq. }
    rewrite Hrest. unfold pod_findings_of. rewrite length_map. cbn. lia.
  - rewrite names_pod_findings_other.
    + cbn. now apply IH.
    + intros E. apply H0. rewrite E. now apply in_map.
Qed.

End Rules.

(* ------------------------------------------------------------------ *)
(** ** Properties of a cleanup run *)

(** C7. An entry is filed under [crashloop_pods] exactly for a container
    status of a listed pod whose waiting reason is one of CrashLoopBackOff,
    Error, OOMKilled and ImagePullBackOff, or is CrashLoopBackOff with more
    than 5 restarts; no other container yields an entry. *)
Theorem problem_pod_rule
    (fromisoformat : string -> option Z) (a : Eks.arguments) (w : Eks.world)
    (items : list Eks.pod) (e : Eks.pod_entry) :
  Eks.list_pods w = Some items ->
  In e (Eks.crashloop_pods (Eks.report (Eks.scan fromisoformat a w))) <->
  exists (p : Eks.pod) (cs : Eks.container_status),
    In p items
    /\ In cs (Eks.container_statuses_of p)
    /\ (In (Eks.waiting_reason_of cs)
           ["CrashLoopBackOff"; "Error"; "OOMKilled"; "ImagePullBackOff"]
        \/ (Eks.waiting_reason_of cs = "CrashLoopBackOff"
            /\ (Eks.restart_count_of cs > 5)%Z))
    /\ e = Eks.pod_entry_of p cs.
Proof.
  intros Hl. rewrite scan_fields. cbn [Eks.report Eks.crashloop_pods].
  rewrite Hl. unfold Eks.pod_findings. cbn [Eks.get_or].
  rewrite in_flat_map. unfold Eks.pod_findings_of. split.
  - intros (p & Hp & He). apply in_map_iff in He as (cs & <- & Hcs).
    apply filter_In in Hcs as [Hcs Hpb]. apply is_problem_iff in Hpb.
    exists p, cs. auto.
  - intros (p & cs & Hp & Hcs & Hpb & ->). exists p. split; [exact Hp|].
    apply in_map, filter_In. split; [exact Hcs | now apply is_problem_iff].
Qed.

Lemma problem_pod_rule_witness :
  In (Eks.mk_pod_entry "prod" "web-1" "app" "CrashLoopBackOff" 8%Z)
     (Eks.crashloop_pods
        (Eks.report
           (Eks.scan Sample.parser (Sample.flags false false)
              (Sample.cluster [Sample.web] [] Sample.never)))) <->
  exists (p : Eks.pod) (cs : Eks.container_status),
    In p [Sample.web]
    /\ In cs (Eks.container_statuses_of p)
    /\ (In (Eks.waiting_reason_of cs)
           ["CrashLoopBackOff"; "Error"; "OOMKilled"; "ImagePullBackOff"]
        \/ (Eks.waiting_reason_of cs = "CrashLoopBackOff"
            /\ (Eks.restart_count_of cs > 5)%Z))
    /\ Eks.mk_pod_entry "prod" "web-1" "app" "CrashLoopBackOff" 8%Z
       = Eks.pod_entry_of p cs.
Proof.
  apply (problem_pod_rule Sample.parser (Sample.flags false false)
           (Sample.cluster [Sample.web] [] Sample.never) [Sample.web]).
  reflexivity.
Defined.

(** The job rule of the scan without exceptions: a listed job whose creation
    timestamp parses is filed under [completed_jobs] exactly when one of its
    conditions has type Complete or Failed and the time since its creation
    is strictly more than the maximum age in hours. *)
Lemma stale_job_rule
    (fromisoformat : string -> option Z) (a : Eks.arguments) (w : Eks.world)
    (items : list Eks.job) (j : Eks.job) (creation_time : Z) :
  Eks.list_jobs w = Some items ->
  NoDup (map Eks.job_id items) ->
  In j items ->
  fromisoformat (Eks.replace_Z (Eks.get_or (Eks.creationTimestamp j) ""))
    = Some creation_time ->
  In (Eks.job_entry_of j)
     (Eks.completed_jobs (Eks.report (Eks.scan fromisoformat a w))) <->
  (exists c : Eks.job_condition,
      In c (Eks.conditions_of j)
      /\ (Eks.cond_type c = Some "Complete" \/ Eks.cond_type c = Some "Failed"))
  /\ (Eks.now w - creation_time
      > Eks.job_max_age_hours a * Eks.microseconds_per_hour)%Z.
Proof.
  intros Hl Hn Hj Ht. rewrite scan_fields. cbn [Eks.report Eks.completed_jobs].
  rewrite Hl. unfold Eks.job_findings. cbn [Eks.get_or].
  assert (Hstale : Eks.is_stale fromisoformat (Eks.cutoff_of a w) j = true <->
    (exists c : Eks.job_condition,
        In c (Eks.conditions_of j)
        /\ (Eks.cond_type c = Some "Complete" \/ Eks.cond_type c = Some "Failed"))
    /\ (Eks.now w - creation_time
        > Eks.job_max_age_hours a * Eks.microseconds_per_hour)%Z).
  { rewrite is_stale_eq, Ht, andb_true_iff, existsb_exists, Z.ltb_lt.
    unfold Eks.cutoff_of. split.
    - intros [(c & Hc & Hty) Hlt]. split; [|lia].
      exists c. split; [exact Hc | now apply is_terminal_type_iff].
    - intros [(c & Hc & Hty) Hlt]. split; [|lia].
      exists c. split; [exact Hc | now apply is_terminal_type_iff]. }
  rewrite <- Hstale, in_map_iff. split.
  - intros (j' & E & Hj'). apply filter_In in Hj' as [Hj' Hs].
    assert (j' = j) as ->; [|exact Hs].
    apply (NoDup_map_injective Eks.job_id items); try assumption.
    unfold Eks.job_entry_of in E. unfold Eks.job_id. congruence.
  - intros Hs. exists j. split; [reflexivity|].
    apply filter_In. auto.
Qed.

(** C9. A job whose creation timestamp is missing or does not parse is
    skipped: the run ends as it does on the listing without that job, so
    the job yields no finding and no error, and the jobs around it are
    scanned as usual; the error list holds at most the failure to list the
    pods. *)
Theorem malformed_timestamp_skipped
    (fromisoformat : string -> option Z) (a : Eks.arguments) (w : Eks.world)
    (before after : list Eks.job) (j : Eks.job) :
  fromisoformat "" = None ->
  Eks.list_jobs w = Some (before ++ j :: after) ->
  (Eks.creationTimestamp j = None
   \/ exists s, Eks.creationTimestamp j = Some s
                /\ fromisoformat (Eks.replace_Z s) = None) ->
  Eks.main fromisoformat a w
    = Eks.main fromisoformat a (Eks.with_jobs w (Some (before ++ after)))
  /\ Eks.errors (Eks.report (Eks.scan fromisoformat a w))
     = match Eks.list_pods w with
       | Some _ => []
       | None => ["Failed to list pods"]
       end.
Proof.
  intros Hempty Hl Hts.
  assert (Hskip : Eks.is_stale fromisoformat (Eks.cutoff_of a w) j = false).
  { rewrite is_stale_eq. destruct Hts as [->|(s & -> & Hs)]; cbn [Eks.get_or].
    - now rewrite replace_Z_empty, Hempty.
    - now rewrite Hs. }
  assert (Hscan : Eks.scan fromisoformat a w
                  = Eks.scan fromisoformat a (Eks.with_jobs w (Some (before ++ after)))).
  { rewrite !scan_fields. cbn [Eks.with_jobs Eks.list_pods Eks.list_jobs
      Eks.delete_exits_zero]. rewrite Hl.
    unfold Eks.cutoff_of. cbn [Eks.now Eks.with_jobs].
    fold (Eks.cutoff_of a w).
    unfold Eks.job_findings. cbn [Eks.get_or].
    rewrite !filter_app. cbn [filter]. rewrite Hskip.
    unfold Eks.listing_errors. reflexivity. }
  split.
  - unfold Eks.main. cbn [Eks.with_jobs Eks.kubeconfig_ok].
    now rewrite <- Hscan.
  - rewrite scan_fields. cbn [Eks.report Eks.errors]. rewrite Hl.
    unfold Eks.listing_errors. destruct (Eks.list_pods w); reflexivity.
Qed.

Lemma malformed_timestamp_skipped_witness :
  Eks.main Sample.parser (Sample.flags false true)
    (Sample.cluster [] [Sample.undated_job; Sample.old_job] Sample.always)
  = Eks.main Sample.parser (Sample.flags false true)
      (Eks.with_jobs
         (Sample.cluster [] [Sample.undated_job; Sample.old_job] Sample.always)
         (Some ([] ++ [Sample.old_job])))
  /\ Eks.errors
       (Eks.report
          (Eks.scan Sample.parser (Sample.flags false true)
             (Sample.cluster [] [Sample.undated_job; Sample.old_job]
                Sample.always)))
     = [].
Proof.
  apply (malformed_timestamp_skipped Sample.parser (Sample.flags false true)
           (Sample.cluster [] [Sample.undated_job; Sample.old_job] Sample.always)
           [] [Sample.old_job] Sample.undated_job).
  - reflexivity.
  - reflexivity.
  - left. reflexivity.
Defined.

Lemma pod_cmd_names (dry_run : bool) (p : Eks.pod) (e : Eks.pod_entry) :
  (if Eks.cmd_eq_dec (fst (Eks.pod_attempt dry_run e))
        (Eks.kubectl_delete_cmd "pod" (Eks.pod_name p) (Eks.pod_namespace p) dry_run)
   then true else false)
  = Eks.names_pod p e.
Proof.
  unfold Eks.names_pod, Eks.pod_attempt, Eks.kubectl_delete_cmd. cbn [fst].
  destruct (Eks.cmd_eq_dec _ _) as [E|E].
  - cbn in E. injection E as Em En. rewrite Em, En, !String.eqb_refl.
    reflexivity.
  - destruct (String.eqb (Eks.pe_namespace e) (Eks.pod_namespace p)) eqn:En;
      [|reflexivity].
    destruct (String.eqb (Eks.pe_pod e) (Eks.pod_name p)) eqn:Em;
      [|reflexivity].
    apply String.eqb_eq in En, Em. exfalso. apply E. now rewrite En, Em.
Qed.

Lemma job_cmd_is_no_pod_cmd (dry_run : bool) (name namespace : string)
    (jobs : list Eks.job_entry) :
  count_occ Eks.cmd_eq_dec (map fst (map (Eks.job_attempt dry_run) jobs))
    (Eks.kubectl_delete_cmd "pod" name namespace dry_run) = 0%nat.
Proof.
  apply count_occ_not_In. intros Hin.
  apply in_map_iff in Hin as (at' & E & Hin).
  apply in_map_iff in Hin as (e & <- & _).
  unfold Eks.job_attempt, Eks.kubectl_delete_cmd in E. cbn in E. discriminate.
Qed.

(** C10. A listed pod with [k] containers in a problem state gets [k]
    entries under [crashloop_pods], all naming that pod, and, when deletion
    of such pods is requested, [k] runs of the delete command for that pod;
    without the request no delete command is run for it. *)
Theorem problem_pod_multiplicity
    (fromisoformat : string -> option Z) (a : Eks.arguments) (w : Eks.world)
    (items : list Eks.pod) (p : Eks.pod) :
  Eks.list_pods w = Some items ->
  NoDup (map Eks.pod_id items) ->
  In p items ->
  let k := List.length (filter Eks.is_problem (Eks.container_statuses_of p)) in
  let st := Eks.scan fromisoformat a w in
  let cmd := Eks.kubectl_delete_cmd "pod" (Eks.pod_name p) (Eks.pod_namespace p)
               (Eks.dry_run a) in
  List.length (filter (Eks.names_pod p) (Eks.crashloop_pods (Eks.report st))) = k
  /\ count_occ Eks.cmd_eq_dec (Eks.deletes st) cmd
     = if Eks.delete_crashloop a then k else 0%nat.
Proof.
  intros Hl Hn Hp. cbv zeta. rewrite scan_fields.
  cbn [Eks.report Eks.crashloop_pods Eks.deletes]. rewrite Hl.
  unfold Eks.pod_findings. cbn [Eks.get_or].
  split; [now apply names_pod_count|].
  rewrite map_app, count_occ_app.
  assert (Hjobs : forall l,
    count_occ Eks.cmd_eq_dec
      (map fst (Eks.gated (Eks.delete_jobs a) (Eks.job_attempt (Eks.dry_run a)) l))
      (Eks.kubectl_delete_cmd "pod" (Eks.pod_name p) (Eks.pod_namespace p)
         (Eks.dry_run a)) = 0%nat).
  { intros l. unfold Eks.gated. destruct (Eks.delete_jobs a);
      [apply job_cmd_is_no_pod_cmd | reflexivity]. }
  rewrite Hjobs, Nat.add_0_r. unfold Eks.gated.
  destruct (Eks.delete_crashloop a); [|reflexivity].
  rewrite map_map, count_occ_map_filter.
  rewrite (filter_ext _ _ (pod_cmd_names (Eks.dry_run a) p)).
  now apply names_pod_count.
Qed.

Lemma problem_pod_multiplicity_witness :
  List.length
    (filter (Eks.names_pod Sample.web)
       (Eks.crashloop_pods
          (Eks.report
             (Eks.scan Sample.parser (Sample.flags true false)
                (Sample.cluster [Sample.web] [] Sample.never))))) = 2%nat
  /\ count_occ Eks.cmd_eq_dec
       (Eks.deletes
          (Eks.scan Sample.parser (Sample.flags true false)
             (Sample.cluster [Sample.web] [] Sample.never)))
       ["kubectl"; "delete"; "pod"; "web-1"; "-n"; "prod"] = 2%nat.
Proof.
  apply (problem_pod_multiplicity Sample.parser (Sample.flags true false)
           (Sample.cluster [Sample.web] [] Sample.never) [Sample.web] Sample.web).
  - reflexivity.
  - repeat constructor. intros [].
  - now left.
Defined.




(** C5, amended. The delete command is run once for each finding of a kind
    whose delete flag is set, in the order of the findings, and for nothing
    else; [actions_taken] gets one text for each run that succeeds, so it
    is no longer than the list of runs, and has one text for each run when
    every run succeeds. *)
Theorem delete_runs_follow_findings
    (fromisoformat : string -> option Z) (a : Eks.arguments) (w : Eks.world) :
  let st := Eks.scan fromisoformat a w in
  let r := Eks.report st in
  Eks.deletes st
  = (if Eks.delete_crashloop a
     then map (fun e => Eks.kubectl_delete_cmd "pod" (Eks.pe_pod e)
                          (Eks.pe_namespace e) (Eks.dry_run a))
              (Eks.crashloop_pods r)
     else [])
    ++ (if Eks.delete_jobs a
        then map (fun e => Eks.kubectl_delete_cmd "job" (Eks.je_job e)
                             (Eks.je_namespace e) (Eks.dry_run a))
                 (Eks.completed_jobs r)
        else [])
  /\ Eks.actions_taken r
     = Eks.recorded (Eks.delete_exits_zero w) []
         (Eks.attempts_of (Eks.dry_run a) (Eks.delete_crashloop a)
            (Eks.delete_jobs a) r)
  /\ (List.length (Eks.actions_taken r) <= List.length (Eks.deletes st))%nat
  /\ ((forall history cmd, Eks.delete_exits_zero w history cmd = true) ->
      List.length (Eks.actions_taken r) = List.length (Eks.deletes st)).
Proof.
  cbv zeta. rewrite scan_fields. unfold Eks.attempts_of.
  cbn [Eks.report Eks.crashloop_pods Eks.completed_jobs Eks.actions_taken
       Eks.deletes].
  split; [|split; [reflexivity|split]].
  - rewrite map_app. unfold Eks.gated.
    destruct (Eks.delete_crashloop a), (Eks.delete_jobs a);
      rewrite ?map_map; reflexivity.
  - rewrite length_map. apply recorded_length.
  - intros Hok. rewrite recorded_all_succeed by exact Hok.
    now rewrite !length_map.
Qed.

Lemma delete_runs_follow_findings_witness :
  let st := Eks.scan Sample.parser (Sample.flags true true)
              (Sample.cluster [Sample.web] [Sample.old_job] Sample.always) in
  List.length (Eks.actions_taken (Eks.report st)) = List.length (Eks.deletes st).
Proof.
  intros st.
  apply (delete_runs_follow_findings Sample.parser (Sample.flags true true)
           (Sample.cluster [Sample.web] [Sample.old_job] Sample.always)).
  reflexivity.
Defined.

(** C5 fails where it counts outcomes: with deletion requested and the
    delete command failing, there is a finding and a run of the command but
    no recorded outcome. *)
Lemma failed_delete_not_counted :
  let st := Eks.scan Sample.parser (Sample.flags false true)
              (Sample.cluster [] [Sample.old_job] Sample.never) in
  List.length (Eks.completed_jobs (Eks.report st)) = 1%nat
  /\ List.length (Eks.deletes st) = 1%nat
  /\ List.length (Eks.actions_taken (Eks.report st)) = 0%nat.
Proof. cbv zeta. repeat split. Qed.

(* ------------------------------------------------------------------ *)
(** ** The exit code *)

(** C2, amended. A cleanup run that gets to its report exits with a
    non-zero code exactly when [crashloop_pods] or [errors] is non-empty;
    stale jobs do not count.  A cost run that gets to its report exits
    with code zero, whatever anomalies it found. *)
Theorem exit_code_rule :
  (forall fromisoformat a w st exit_code,
      Eks.main fromisoformat a w = Eks.Reported st exit_code ->
      st = Eks.scan fromisoformat a w
      /\ (exit_code <> 0%Z <->
          Eks.crashloop_pods (Eks.report st) <> []
          \/ Eks.errors (Eks.report st) <> []))
  /\ (forall threshold w current_costs previous_costs anomalies exit_code,
         Cost.main threshold w
         = Cost.Reported current_costs previous_costs anomalies exit_code ->
         anomalies = Cost.detect_anomalies current_costs previous_costs threshold
         /\ exit_code = 0%Z).
Proof.
  split.
  - intros fromisoformat a w st exit_code. unfold Eks.main.
    destruct (Eks.kubeconfig_ok w); [|discriminate].
    destruct (Eks.crashloop_pods _) as [|e l] eqn:Ep;
      destruct (Eks.errors _) as [|m l'] eqn:Ee; cbn;
      intros H; injection H as <- <-; (split; [reflexivity|]);
      rewrite Ep, Ee; split; try discriminate; intuition congruence.
  - intros threshold w current_costs previous_costs anomalies exit_code.
    unfold Cost.main.
    destruct (Cost.current_response w); [|discriminate].
    destruct (Cost.previous_response w); [|discriminate].
    intros H. injection H as <- <- <- <-. auto.
Qed.

Lemma exit_code_rule_witness :
  (1%Z <> 0%Z <->
   Eks.crashloop_pods
     (Eks.report
        (Eks.scan Sample.parser (Sample.flags false false)
           (Sample.cluster [Sample.web] [] Sample.never))) <> []
   \/ Eks.errors
        (Eks.report
           (Eks.scan Sample.parser (Sample.flags false false)
              (Sample.cluster [Sample.web] [] Sample.never))) <> []).
Proof.
  refine (proj2 (proj1 exit_code_rule Sample.parser (Sample.flags false false)
                   (Sample.cluster [Sample.web] [] Sample.never)
                   (Eks.scan Sample.parser (Sample.flags false false)
                      (Sample.cluster [Sample.web] [] Sample.never))
                   1%Z _)).
  reflexivity.
Defined.

(** C2 fails for both tools: a cleanup run that finds only a stale job, and
    a cost run that finds an anomaly, exit with code zero. *)
Lemma findings_with_exit_code_zero :
  (exists st,
      Eks.main Sample.parser (Sample.flags false false)
        (Sample.cluster [] [Sample.old_job] Sample.never)
      = Eks.Reported st 0
      /\ Eks.completed_jobs (Eks.report st) = [Eks.job_entry_of Sample.old_job])
  /\ (exists current_costs previous_costs a,
         Cost.main 25
           {| Cost.current_response := Some [("EC2", 150)];
              Cost.previous_response := Some [("EC2", 100)] |}
         = Cost.Reported current_costs previous_costs [a] 0
         /\ Cost.service a = "EC2").
Proof.
  split.
  - eexists. split; reflexivity.
  - do 3 eexists. split; reflexivity.
Qed.

(* ------------------------------------------------------------------ *)
(** ** The snapshots [main] passes to [detect_anomalies] *)

Section CostSnapshots.

Import Cost.

Lemma dict_set_keys_In {V} (d : dict V) (k k0 : string) (v : V) :
  In k0 (dict_keys (dict_set d k v)) <-> k0 = k \/ In k0 (dict_keys d).
Proof.
  induction d as [|[k' v'] d IH]; cbn [dict_set].
  - cbn. intuition.
  - destruct (String.eqb k' k) eqn:E.
    + apply String.eqb_eq in E. subst k'. cbn. intuition.
    + cbn [dict_keys map fst In]. fold (dict_keys (dict_set d k v)).
      fold (dict_keys d). rewrite IH. intuition.
Qed.

Lemma dict_set_NoDup {V} (d : dict V) (k : string) (v : V) :
  NoDup (dict_keys d) -> NoDup (dict_keys (dict_set d k v)).
Proof.
  induction d as [|[k' v'] d IH]; intros Hn; cbn [dict_set].
  - repeat constructor. intros [].
  - cbn in Hn. inversion Hn as [|? ? Hk Hn']; subst.
    destruct (String.eqb k' k) eqn:E.
    + cbn. now constructor.
    + apply String.eqb_neq in E. cbn [dict_keys map fst].
      fold (dict_keys (dict_set d k v)). constructor; [|now apply IH].
      rewrite dict_set_keys_In. intros [->|Hin]; [now apply E | now apply Hk].
Qed.

Lemma collect_costs_NoDup (groups : list cost_group) (costs : dict Q) :
  NoDup (dict_keys costs) -> NoDup (dict_keys (collect_costs groups costs)).
Proof.
  revert costs. induction groups as [|[service amount] rest IH];
    intros costs Hn; [exact Hn|].
  cbn [collect_costs]. destruct (Qlt_bool (1 # 100) amount).
  - apply IH. now apply dict_set_NoDup.
  - now apply IH.
Qed.

(** The snapshot built from a Cost Explorer answer has distinct keys. *)
Lemma get_monthly_cost_by_service_keys (groups : list cost_group) :
  NoDup (dict_keys (get_monthly_cost_by_service groups)).
Proof.
  unfold get_monthly_cost_by_service, dict_keys.
  eapply Permutation_NoDup.
  - apply Permutation_map, sorted_desc_perm.
  - apply (collect_costs_NoDup groups []). constructor.
Qed.

End CostSnapshots.

(* ------------------------------------------------------------------ *)
(** ** The scenarios of the specification *)

Example scenario_A :
  Cost.detect_anomalies [("EC2", 120); ("S3", 40)] [("EC2", 100); ("S3", 40)] 25
  = [].
Proof. reflexivity. Qed.

Example scenario_B :
  Cost.detect_anomalies [("EC2", 150)] [("EC2", 100)] 25
  = [Cost.mk_anomaly "EC2" 150 100 (500 # 10) (Cost.Cost_increased_by (5000 # 100))].
Proof. reflexivity. Qed.

Example scenario_C :
  Cost.detect_anomalies [("Lambda", 15)] [] 25
  = [Cost.mk_anomaly "Lambda" 15 0 100 Cost.New_service_with_spend].
Proof. reflexivity. Qed.

Example scenario_D : Cost.detect_anomalies [("Lambda", 5)] [] 25 = [].
Proof. reflexivity. Qed.

Example scenario_ties :
  map Cost.service
    (Cost.detect_anomalies
       [("S3", 20); ("EC2", 300); ("Lambda", 15); ("RDS", 11)]
       [("EC2", 100)] 25)
  = ["EC2"; "S3"; "Lambda"; "RDS"].
Proof. reflexivity. Qed.

Example scenario_E :
  let pod :=
    {| Eks.pod_namespace := "prod";
       Eks.pod_name := "api-0";
       Eks.pod_status_of := Some {| Eks.containerStatuses := Some
         [ {| Eks.cs_name := "api";
              Eks.cs_state := Sample.waiting "CrashLoopBackOff";
              Eks.cs_restartCount := Some 8%Z |} ] |} |} in
  let a := {| Eks.dry_run := true; Eks.delete_crashloop := true;
              Eks.delete_jobs := false; Eks.job_max_age_hours := 24%Z |} in
  let st := Eks.scan Sample.parser a (Sample.cluster [pod] [] Sample.always) in
  Eks.crashloop_pods (Eks.report st)
  = [Eks.mk_pod_entry "prod" "api-0" "api" "CrashLoopBackOff" 8%Z]
  /\ Eks.deletes st
     = [["kubectl"; "delete"; "pod"; "api-0"; "-n"; "prod"; "--dry-run=client"]]
  /\ Eks.actions_taken (Eks.report st)
     = ["Deleted pod prod/api-0 (CrashLoopBackOff)"].
Proof. cbv zeta. repeat split. Qed.

(* ------------------------------------------------------------------ *)
(** ** Rounding *)

Lemma py_round_scaled (x : Q) (ndigits : nat) :
  let scale := Z.pow 10 (Z.of_nat ndigits) in
  exists z : Z,
    py_round x ndigits = Qmake z (Z.to_pos scale)
    /\ (Z.abs (2 * z * Zpos (Qden x) - 2 * Qnum x * scale) <= Zpos (Qden x))%Z
    /\ (Qnum x * scale / Zpos (Qden x) <= z)%Z.
Proof.
  cbv zeta. unfold py_round. destruct x as [a b]. cbn [Qnum Qden Qmult inject_Z].
  set (s := (10 ^ Z.of_nat ndigits)%Z).
  rewrite Pos.mul_1_r.
  assert (Hb : (0 < Zpos b)%Z) by lia.
  pose proof (Z.div_mod (a * s) (Zpos b) ltac:(lia)) as Hdm.
  pose proof (Z.mod_pos_bound (a * s) (Zpos b) Hb) as Hr.
  set (fl := (a * s / Zpos b)%Z) in *. set (r := ((a * s) mod Zpos b)%Z) in *.
  clearbody fl r s.
  destruct (Z.compare_spec (2 * r) (Zpos b)) as [E|E|E].
  - destruct (Z.even fl).
    + exists fl. repeat split; [|lia].
      replace (2 * fl * Z.pos b - 2 * a * s)%Z with (- 2 * r)%Z
        by (rewrite <- (Z.mul_assoc 2 a s), Hdm; ring). lia.
    + exists (fl + 1)%Z. repeat split; [|lia].
      replace (2 * (fl + 1) * Z.pos b - 2 * a * s)%Z with (2 * Z.pos b - 2 * r)%Z
        by (rewrite <- (Z.mul_assoc 2 a s), Hdm; ring). lia.
  - exists fl. repeat split; [|lia].
    replace (2 * fl * Z.pos b - 2 * a * s)%Z with (- 2 * r)%Z
        by (rewrite <- (Z.mul_assoc 2 a s), Hdm; ring). lia.
  - exists (fl + 1)%Z. repeat split; [|lia].
    replace (2 * (fl + 1) * Z.pos b - 2 * a * s)%Z with (2 * Z.pos b - 2 * r)%Z
        by (rewrite <- (Z.mul_assoc 2 a s), Hdm; ring). lia.
Qed.

Lemma py_round_floor (x : Q) (ndigits : nat) (k : Z) :
  inject_Z k / inject_Z (10 ^ Z.of_nat ndigits) <= x ->
  inject_Z k / inject_Z (10 ^ Z.of_nat ndigits) <= py_round x ndigits.
Proof.
  destruct (py_round_scaled x ndigits) as (z & -> & _ & Hfl).
  destruct x as [a b]. cbn [Qnum Qden] in Hfl.
  assert (Hs : (0 < 10 ^ Z.of_nat ndigits)%Z) by (apply Z.pow_pos_nonneg; lia).
  set (s := (10 ^ Z.of_nat ndigits)%Z) in *. clearbody s.
  intros Hk.
  assert (Hk' : (k * Z.pos b <= a * s)%Z).
  { revert Hk. unfold Qle, Qdiv, Qmult, Qinv, inject_Z. cbn [Qnum Qden].
    destruct s as [|sp|sp]; try lia. cbn [Qnum Qden]. lia. }
  assert (Hkz : (k <= z)%Z).
  { apply Z.le_trans with (a * s / Z.pos b)%Z; [|exact Hfl].
    apply Z.div_le_lower_bound; lia. }
  unfold Qle, Qdiv, Qmult, Qinv, inject_Z. cbn [Qnum Qden].
  destruct s as [|sp|sp]; try lia. cbn [Qnum Qden Z.to_pos]. nia.
Qed.

Section CostSnapshotFacts.

Import Cost.

Lemma dict_lookup_set_same {V} (d : dict V) (k : string) (v : V) :
  dict_lookup (dict_set d k v) k = Some v.
Proof.
  induction d as [|[k' v'] d IH]; cbn [dict_set dict_lookup].
  - now rewrite String.eqb_refl.
  - destruct (String.eqb k' k) eqn:E; cbn [dict_lookup]; rewrite E;
      [reflexivity | exact IH].
Qed.

Lemma dict_lookup_set_other {V} (d : dict V) (k k0 : string) (v : V) :
  k0 <> k -> dict_lookup (dict_set d k v) k0 = dict_lookup d k0.
Proof.
  intros Hne. induction d as [|[k' v'] d IH]; cbn [dict_set dict_lookup].
  - apply String.eqb_neq in Hne. rewrite String.eqb_sym in Hne. now rewrite Hne.
  - destruct (String.eqb k' k) eqn:E; cbn [dict_lookup].
    + apply String.eqb_eq in E. subst k'.
      apply String.eqb_neq in Hne. rewrite String.eqb_sym in Hne. now rewrite Hne.
    + now rewrite IH.
Qed.

Lemma dict_lookup_In {V} (d : dict V) (k : string) (v : V) :
  NoDup (dict_keys d) -> dict_lookup d k = Some v <-> In (k, v) d.
Proof.
  induction d as [|[k' v'] d IH]; intros Hn; cbn [dict_lookup In].
  - split; [discriminate | contradiction].
  - cbn in Hn. inversion Hn as [|? ? Hk Hn']; subst.
    destruct (String.eqb k' k) eqn:E.
    + apply String.eqb_eq in E. subst k'. split.
      * intros H. injection H as ->. now left.
      * intros [H|H]; [congruence|]. exfalso. apply Hk.
        change k with (fst (k, v)). now apply in_map.
    + apply String.eqb_neq in E. rewrite (IH Hn'). split; [now right|].
      intros [H|H]; [congruence | exact H].
Qed.

Lemma dict_lookup_None {V} (d : dict V) (k : string) :
  dict_lookup d k = None <-> ~ In k (dict_keys d).
Proof.
  induction d as [|[k' v'] d IH]; cbn [dict_lookup dict_keys map fst In].
  - intuition.
  - destruct (String.eqb k' k) eqn:E.
    + apply String.eqb_eq in E. split; [discriminate | intuition].
    + apply String.eqb_neq in E. fold (dict_keys d). rewrite IH. intuition.
Qed.

Lemma dict_lookup_perm {V} (d d' : dict V) (k : string) :
  NoDup (dict_keys d) -> Permutation d d' -> dict_lookup d k = dict_lookup d' k.
Proof.
  intros Hn Hp.
  assert (Hn' : NoDup (dict_keys d')).
  { eapply Permutation_NoDup; [apply Permutation_map, Hp | exact Hn]. }
  destruct (dict_lookup d k) as [v|] eqn:E.
  - symmetry. apply dict_lookup_In; [exact Hn'|].
    eapply Permutation_in; [exact Hp|]. now apply dict_lookup_In.
  - symmetry. apply dict_lookup_None. apply dict_lookup_None in E.
    intros Hin. apply E. eapply Permutation_in; [|exact Hin].
    apply Permutation_map, Permutation_sym, Hp.
Qed.

Lemma collect_costs_keys_In (groups : list cost_group) (costs : dict Q)
    (k : string) :
  In k (dict_keys (collect_costs groups costs)) <->
  In k (dict_keys costs)
  \/ exists amount, In (k, amount) groups /\ 1 # 100 < amount.
Proof.
  revert costs. induction groups as [|[service amount] rest IH]; intros costs.
  - cbn. split; [auto | intros [H|(amount & [] & _)]; exact H].
  - cbn [collect_costs]. destruct (Qlt_bool (1 # 100) amount) eqn:E.
    + apply Qlt_bool_iff in E. rewrite IH, dict_set_keys_In. split.
      * intros [[->|H]|(amount' & Hin & Hlt)].
        -- right. exists amount. split; [now left | exact E].
        -- now left.
        -- right. exists amount'. split; [now right | exact Hlt].
      * intros [H|(amount' & [Heq|Hin] & Hlt)].
        -- left. now right.
        -- injection Heq as -> ->. left. now left.
        -- right. eauto.
    + apply Qlt_bool_false in E. rewrite IH. split.
      * intros [H|(amount' & Hin & Hlt)]; [now left|].
        right. exists amount'. split; [now right | exact Hlt].
      * intros [H|(amount' & [Heq|Hin] & Hlt)]; [now left| |right; eauto].
        injection Heq as -> ->. exfalso. exact (Qlt_not_le _ _ Hlt E).
Qed.

Lemma dict_set_Forall {V} (P : V -> Prop) (d : dict V) (k : string) (v : V) :
  Forall (fun kv => P (snd kv)) d -> P v ->
  Forall (fun kv => P (snd kv)) (dict_set d k v).
Proof.
  intros Hd Hv. induction d as [|[k' v'] d IH]; cbn [dict_set].
  - now repeat constructor.
  - inversion Hd as [|? ? Hv' Hd']; subst.
    destruct (String.eqb k' k); constructor; auto.
Qed.

Lemma collect_costs_values (groups : list cost_group) (costs : dict Q) :
  Forall (fun kv => 1 # 100 <= snd kv) costs ->
  Forall (fun kv => 1 # 100 <= snd kv) (collect_costs groups costs).
Proof.
  revert costs. induction groups as [|[service amount] rest IH]; intros costs Hc;
    [exact Hc|].
  cbn [collect_costs]. destruct (Qlt_bool (1 # 100) amount) eqn:E; [|now apply IH].
  apply Qlt_bool_iff in E. apply IH.
  apply (dict_set_Forall (fun v => 1 # 100 <= v)); [exact Hc|].
  apply (py_round_floor amount 2 1). now apply Qlt_le_weak.
Qed.

End CostSnapshotFacts.

Section CostExtras.

Import Cost.

(** X1. The snapshot has one entry for each service that has a group with an
    amount over 0.01, and for no other service. *)
Theorem get_monthly_cost_by_service_services (groups : list cost_group) :
  NoDup (dict_keys (get_monthly_cost_by_service groups))
  /\ forall k : string,
       In k (dict_keys (get_monthly_cost_by_service groups)) <->
       exists amount, In (k, amount) groups /\ 1 # 100 < amount.
Proof.
  split; [apply get_monthly_cost_by_service_keys|]. intros k.
  unfold get_monthly_cost_by_service, dict_keys.
  assert (Hperm : Permutation (map fst (collect_costs groups []))
                    (map fst (sorted_desc snd (collect_costs groups [])))).
  { apply Permutation_map, sorted_desc_perm. }
  split.
  - intros Hin. apply (Permutation_in _ (Permutation_sym Hperm)) in Hin.
    apply collect_costs_keys_In in Hin. destruct Hin as [[]|H]. exact H.
  - intros H. apply (Permutation_in _ Hperm).
    apply collect_costs_keys_In. now right.
Qed.

Lemma snapshot_sorted (groups : list cost_group) :
  StronglySorted (fun x y : string * Q => snd y <= snd x)
    (get_monthly_cost_by_service groups).
Proof. apply sorted_desc_sorted. Qed.

Lemma snapshot_values (groups : list cost_group) :
  Forall (fun kv : string * Q => 1 # 100 <= snd kv)
    (get_monthly_cost_by_service groups).
Proof.
  unfold get_monthly_cost_by_service. apply Forall_forall. intros kv Hin.
  apply sorted_desc_In in Hin.
  pose proof (collect_costs_values groups [] (Forall_nil _)) as Hv.
  rewrite Forall_forall in Hv. now apply Hv.
Qed.

(** X2. The snapshot is in descending order of cost, and every cost in it
    is at least 0.01. *)
Theorem get_monthly_cost_by_service_sorted (groups : list cost_group) :
  StronglySorted (fun x y : string * Q => snd y <= snd x)
    (get_monthly_cost_by_service groups)
  /\ Forall (fun kv : string * Q => 1 # 100 <= snd kv)
       (get_monthly_cost_by_service groups).
Proof.
  split; [apply snapshot_sorted | apply snapshot_values].
Qed.

(** X4. Lowering the threshold loses no anomaly. *)
Theorem detect_anomalies_threshold_antitone
    (current previous : dict Q) (low high : Q) (a : anomaly) :
  low <= high ->
  In a (detect_anomalies current previous high) ->
  In a (detect_anomalies current previous low).
Proof.
  intros Hle Ha. apply detect_anomalies_In in Ha. apply detect_anomalies_In.
  destruct Ha as (Hin & Hp & Hr). repeat split; try assumption.
  destruct Hr as [Hnew|(p & Hl & Hnz & Hthr & Hrest)]; [now left|].
  right. exists p. repeat split; try tauto.
  eapply Qle_trans; eassumption.
Qed.

Lemma detect_anomalies_threshold_antitone_witness :
  In (mk_anomaly "EC2" 150 100 (500 # 10) (Cost_increased_by (5000 # 100)))
     (detect_anomalies [("EC2", 150)] [("EC2", 100)] 10).
Proof.
  apply (detect_anomalies_threshold_antitone _ _ 10 25).
  - discriminate.
  - now left.
Defined.

(** X5. With a threshold above zero, a service with a positive baseline whose
    cost did not rise gets no anomaly. *)
Theorem cost_not_increased_not_flagged
    (current previous : dict Q) (threshold_pct : Q) (k : string) (c p : Q) :
  NoDup (dict_keys current) ->
  0 < threshold_pct ->
  In (k, c) current ->
  dict_lookup previous k = Some p ->
  0 < p ->
  c <= p ->
  ~ In k (map service (detect_anomalies current previous threshold_pct)).
Proof.
  intros Hn Ht Hc Hp Hpos Hle Hin. apply in_map_iff in Hin as (a & Hk & Ha).
  apply detect_anomalies_In in Ha. destruct Ha as (Hin & _ & Hr).
  rewrite Hk in Hin.
  assert (Hca : Cost.current a = c) by (eapply dict_keys_functional; eassumption).
  destruct Hr as [(Hb & _)|(p' & Hp' & Hnz & Hthr & _)].
  - rewrite Hk, Hp in Hb. destruct Hb as [Hb|(p' & Hp' & Hz)]; [discriminate|].
    injection Hp' as <-. rewrite Hz in Hpos. discriminate.
  - rewrite Hk, Hp in Hp'. injection Hp' as <-. rewrite Hca in Hthr.
    apply (Qlt_not_le _ _ Ht). eapply Qle_trans; [exact Hthr|].
    setoid_replace 0 with (0 * 100) by reflexivity.
    apply Qmult_le_compat_r; [|discriminate].
    apply Qle_shift_div_r; [exact Hpos|].
    rewrite Qmult_0_l. unfold Qminus. rewrite <- (Qplus_opp_r p).
    apply Qplus_le_compat; [exact Hle | apply Qle_refl].
Qed.

Lemma cost_not_increased_not_flagged_witness :
  ~ In "S3"
      (map service
         (detect_anomalies [("EC2", 150); ("S3", 30)] [("EC2", 100); ("S3", 40)] 25)).
Proof.
  apply (cost_not_increased_not_flagged _ _ 25 "S3" 30 40).
  - repeat constructor; cbn; intuition discriminate.
  - reflexivity.
  - right. now left.
  - reflexivity.
  - reflexivity.
  - discriminate.
Defined.

(** X6. A service whose baseline is absent or zero and whose cost is at most
    10 gets no anomaly, whatever the threshold. *)
Theorem small_new_service_not_flagged
    (current previous : dict Q) (threshold_pct : Q) (k : string) (c : Q) :
  NoDup (dict_keys current) ->
  In (k, c) current ->
  dict_get previous k 0 == 0 ->
  c <= 10 ->
  ~ In k (map service (detect_anomalies current previous threshold_pct)).
Proof.
  intros Hn Hc Hz Hle Hin. apply in_map_iff in Hin as (a & Hk & Ha).
  apply detect_anomalies_In in Ha. destruct Ha as (Hin & _ & Hr).
  rewrite Hk in Hin.
  assert (Hca : Cost.current a = c) by (eapply dict_keys_functional; eassumption).
  destruct Hr as [(_ & Hlt & _)|(p' & Hp' & Hnz & _)].
  - rewrite Hca in Hlt. exact (Qlt_not_le _ _ Hlt Hle).
  - apply Hnz. unfold dict_get in Hz. rewrite Hk in Hp'. now rewrite Hp' in Hz.
Qed.

Lemma small_new_service_not_flagged_witness :
  ~ In "Lambda"
      (map service (detect_anomalies [("Lambda", 10); ("EC2", 150)] [("EC2", 100)] 25)).
Proof.
  apply (small_new_service_not_flagged _ _ 25 "Lambda" 10).
  - repeat constructor; cbn; intuition discriminate.
  - now left.
  - reflexivity.
  - discriminate.
Defined.

(** X8. In a run of [main], an anomaly has a current cost of at least 0.01;
    a new-service anomaly is for a service that is missing from the previous
    snapshot, and an increase has a baseline of at least 0.01. *)
Theorem main_anomalies_have_real_baselines
    (threshold : Q) (w : world) (current_costs previous_costs : dict Q)
    (anomalies : list anomaly) (exit_code : Z) (a : anomaly) :
  main threshold w = Reported current_costs previous_costs anomalies exit_code ->
  In a anomalies ->
  1 # 100 <= Cost.current a
  /\ ((why a = New_service_with_spend
       /\ dict_lookup previous_costs (service a) = None
       /\ Cost.previous a = 0)
      \/ ((exists pct, why a = Cost_increased_by pct)
          /\ dict_lookup previous_costs (service a) = Some (Cost.previous a)
          /\ 1 # 100 <= Cost.previous a)).
Proof.
  unfold main.
  destruct (current_response w) as [gc|]; [|discriminate].
  destruct (previous_response w) as [gp|]; [|discriminate].
  intros H Ha. injection H as <- <- <- <-.
  apply detect_anomalies_In in Ha. destruct Ha as (Hin & Hprev & Hr).
  pose proof (snapshot_values gc) as Hvc.
  pose proof (snapshot_values gp) as Hvp.
  rewrite Forall_forall in Hvc, Hvp.
  split; [exact (Hvc _ Hin)|].
  assert (Hpos : forall p, dict_lookup (get_monthly_cost_by_service gp) (service a)
                           = Some p -> 1 # 100 <= p).
  { intros p Hl. apply dict_lookup_In in Hl;
      [|apply get_monthly_cost_by_service_keys]. exact (Hvp _ Hl). }
  destruct Hr as [([Hnone|(p & Hl & Hz)] & _ & _ & Hw)|(p & Hl & _ & _ & _ & Hw)].
  - left. repeat split; try assumption.
    rewrite Hprev. unfold dict_get. now rewrite Hnone.
  - exfalso. apply Hpos in Hl. rewrite Hz in Hl. now apply Hl.
  - right. unfold dict_get in Hprev. rewrite Hl in Hprev. subst p.
    repeat split; eauto.
Qed.

Lemma main_anomalies_have_real_baselines_witness :
  let a := mk_anomaly "Lambda" (1500 # 100) 0 100 New_service_with_spend in
  1 # 100 <= Cost.current a
  /\ ((why a = New_service_with_spend
       /\ dict_lookup (get_monthly_cost_by_service [("EC2", 100); ("Lambda", 0)])
            (service a) = None
       /\ Cost.previous a = 0)
      \/ ((exists pct, why a = Cost_increased_by pct)
          /\ dict_lookup (get_monthly_cost_by_service [("EC2", 100); ("Lambda", 0)])
               (service a) = Some (Cost.previous a)
          /\ 1 # 100 <= Cost.previous a)).
Proof.
  apply (main_anomalies_have_real_baselines 25
           {| current_response := Some [("EC2", 100); ("Lambda", 15)];
              previous_response := Some [("EC2", 100); ("Lambda", 0)] |}
           (get_monthly_cost_by_service [("EC2", 100); ("Lambda", 15)])
           (get_monthly_cost_by_service [("EC2", 100); ("Lambda", 0)])
           (detect_anomalies
              (get_monthly_cost_by_service [("EC2", 100); ("Lambda", 15)])
              (get_monthly_cost_by_service [("EC2", 100); ("Lambda", 0)]) 25)
           0%Z).
  - reflexivity.
  - now left.
Defined.

End CostExtras.

(* ------------------------------------------------------------------ *)
(** ** More on the cleanup run *)

Section EksExtras.

Lemma is_problem_reason (cs : Eks.container_status) :
  Eks.is_problem cs = Eks.in_strings (Eks.waiting_reason_of cs) Eks.problem_states.
Proof.
  unfold Eks.is_problem.
  destruct (String.eqb (Eks.waiting_reason_of cs) "CrashLoopBackOff") eqn:E.
  - apply String.eqb_eq in E. rewrite E. reflexivity.
  - cbn [andb]. apply orb_false_r.
Qed.

(** X14. A container is filed under [crashloop_pods] exactly when its waiting
    reason is one of the four problem states; the restart count changes
    nothing. *)
Theorem restart_count_never_decides
    (fromisoformat : string -> option Z) (a : Eks.arguments) (w : Eks.world)
    (items : list Eks.pod) (e : Eks.pod_entry) :
  Eks.list_pods w = Some items ->
  In e (Eks.crashloop_pods (Eks.report (Eks.scan fromisoformat a w))) <->
  exists (p : Eks.pod) (cs : Eks.container_status),
    In p items
    /\ In cs (Eks.container_statuses_of p)
    /\ In (Eks.waiting_reason_of cs)
          ["CrashLoopBackOff"; "Error"; "OOMKilled"; "ImagePullBackOff"]
    /\ e = Eks.pod_entry_of p cs.
Proof.
  intros Hl. rewrite scan_fields. cbn [Eks.report Eks.crashloop_pods].
  rewrite Hl. unfold Eks.pod_findings. cbn [Eks.get_or].
  rewrite in_flat_map. unfold Eks.pod_findings_of. split.
  - intros (p & Hp & He). apply in_map_iff in He as (cs & <- & Hcs).
    apply filter_In in Hcs as [Hcs Hpb].
    rewrite is_problem_reason in Hpb. apply in_strings_iff in Hpb.
    exists p, cs. auto.
  - intros (p & cs & Hp & Hcs & Hpb & ->). exists p. split; [exact Hp|].
    apply in_map, filter_In. split; [exact Hcs|].
    rewrite is_problem_reason. now apply in_strings_iff.
Qed.


(** X16. No run files anything under [stale_namespaces], and the error list
    is empty exactly when both listings succeed. *)
Theorem stale_namespaces_never_filled
    (fromisoformat : string -> option Z) (a : Eks.arguments) (w : Eks.world) :
  Eks.stale_namespaces (Eks.report (Eks.scan fromisoformat a w)) = []
  /\ (Eks.errors (Eks.report (Eks.scan fromisoformat a w)) = [] <->
      Eks.list_pods w <> None /\ Eks.list_jobs w <> None).
Proof.
  rewrite scan_fields. cbn [Eks.report Eks.stale_namespaces Eks.errors].
  split; [reflexivity|]. unfold Eks.listing_errors.
  destruct (Eks.list_pods w), (Eks.list_jobs w); cbn;
    split; try discriminate; try (intros [H1 H2]; congruence);
    intros _; split; discriminate.
Qed.

(** X17. In a dry run every delete command has seven words, the last being
    [--dry-run=client]; otherwise every delete command has six. *)
Theorem dry_run_flag_on_every_delete
    (fromisoformat : string -> option Z) (a : Eks.arguments) (w : Eks.world)
    (cmd : list string) :
  In cmd (Eks.deletes (Eks.scan fromisoformat a w)) ->
  if Eks.dry_run a
  then List.length cmd = 7%nat /\ last cmd "" = "--dry-run=client"
  else List.length cmd = 6%nat.
Proof.
  rewrite scan_fields. cbn [Eks.deletes]. rewrite map_app.
  intros Hin. apply in_app_or in Hin.
  assert (Hcmd : exists resource_type name namespace,
            cmd = Eks.kubectl_delete_cmd resource_type name namespace (Eks.dry_run a)).
  { destruct Hin as [Hin|Hin]; unfold Eks.gated in Hin.
    - destruct (Eks.delete_crashloop a); [|contradiction].
      apply in_map_iff in Hin as (at' & <- & Hin).
      apply in_map_iff in Hin as (e & <- & _). cbn. eauto.
    - destruct (Eks.delete_jobs a); [|contradiction].
      apply in_map_iff in Hin as (at' & <- & Hin).
      apply in_map_iff in Hin as (e & <- & _). cbn. eauto. }
  destruct Hcmd as (rt & name & ns & ->). unfold Eks.kubectl_delete_cmd.
  destruct (Eks.dry_run a); cbn; auto.
Qed.

(** The exit code of the run without exceptions, from the kubeconfig update
    and the two listings. *)
Lemma exit_code_from_listings
    (fromisoformat : string -> option Z) (a : Eks.arguments) (w : Eks.world) :
  EksReport.exit_code_of (Eks.main fromisoformat a w)
  = if Eks.kubeconfig_ok w then
      match Eks.list_pods w, Eks.list_jobs w with
      | Some pods, Some _ =>
          if existsb (fun p => existsb Eks.is_problem (Eks.container_statuses_of p)) pods
          then 1%Z else 0%Z
      | _, _ => 1%Z
      end
    else 1%Z.
Proof.
  unfold Eks.main. destruct (Eks.kubeconfig_ok w); [|reflexivity].
  rewrite scan_fields. cbn [Eks.report Eks.crashloop_pods Eks.errors].
  unfold Eks.listing_errors, Eks.pod_findings.
  destruct (Eks.list_pods w) as [pods|], (Eks.list_jobs w) as [jobs|];
    cbn [Eks.get_or app flat_map Eks.nonempty orb]; try reflexivity.
  - rewrite orb_false_r.
    assert (H : Eks.nonempty (flat_map Eks.pod_findings_of pods)
                = existsb (fun p => existsb Eks.is_problem (Eks.container_statuses_of p)) pods).
    { induction pods as [|p rest IH]; [reflexivity|].
      cbn [flat_map existsb]. rewrite <- IH. unfold Eks.pod_findings_of.
      induction (Eks.container_statuses_of p) as [|cs l IHl]; [reflexivity|].
      cbn [filter existsb]. destruct (Eks.is_problem cs); [reflexivity | exact IHl]. }
    rewrite H. destruct (existsb _ pods); reflexivity.
  - destruct (Eks.nonempty _); reflexivity.
Qed.

Lemma subsequence_filter_impl {A} (p q : A -> bool) (l : list A) :
  (forall x, p x = true -> q x = true) ->
  subsequence (filter p l) (filter q l).
Proof.
  intros Himp. induction l as [|x l IH]; cbn [filter]; [constructor|].
  destruct (p x) eqn:Ep.
  - rewrite (Himp x Ep). now apply subseq_take.
  - destruct (q x); [now apply subseq_skip | exact IH].
Qed.

Lemma subsequence_map {A B} (f : A -> B) (l1 l2 : list A) :
  subsequence l1 l2 -> subsequence (map f l1) (map f l2).
Proof.
  induction 1 as [|x l1 l2 _ IH|x l1 l2 _ IH]; cbn [map].
  - constructor.
  - now apply subseq_skip.
  - now apply subseq_take.
Qed.

(** In the scan without exceptions, a longer maximum age finds some of the
    stale jobs a shorter one finds, in the same order. *)
Lemma longer_max_age_flags_fewer_jobs
    (fromisoformat : string -> option Z) (a : Eks.arguments) (w : Eks.world)
    (shorter longer : Z) :
  (shorter <= longer)%Z ->
  subsequence
    (Eks.completed_jobs
       (Eks.report (Eks.scan fromisoformat (EksReport.with_max_age a longer) w)))
    (Eks.completed_jobs
       (Eks.report (Eks.scan fromisoformat (EksReport.with_max_age a shorter) w))).
Proof.
  intros Hle. rewrite !scan_fields. cbn [Eks.report Eks.completed_jobs].
  unfold Eks.job_findings. apply subsequence_map, subsequence_filter_impl.
  intros j. rewrite !is_stale_eq.
  destruct (fromisoformat _) as [creation_time|]; [|discriminate].
  rewrite !andb_true_iff, !Z.ltb_lt. unfold Eks.cutoff_of, EksReport.with_max_age.
  cbn [Eks.job_max_age_hours]. unfold Eks.microseconds_per_hour.
  intros [Ht Hlt]. split; [exact Ht | lia].
Qed.

(** X20. When every delete command succeeds, a dry run gives the report of
    the real run, [Deleted] texts included. *)
Theorem dry_run_reports_like_a_real_run
    (fromisoformat : string -> option Z) (a : Eks.arguments) (w : Eks.world) :
  (forall history cmd, Eks.delete_exits_zero w history cmd = true) ->
  Eks.report (Eks.scan fromisoformat (EksReport.with_dry_run a true) w)
  = Eks.report (Eks.scan fromisoformat (EksReport.with_dry_run a false) w).
Proof.
  intros Hok. rewrite !scan_fields. cbn [Eks.report].
  unfold Eks.cutoff_of, EksReport.with_dry_run.
  cbn [Eks.job_max_age_hours Eks.dry_run Eks.delete_crashloop Eks.delete_jobs].
  f_equal. rewrite !recorded_all_succeed by exact Hok.
  rewrite !map_app. unfold Eks.gated.
  destruct (Eks.delete_crashloop a), (Eks.delete_jobs a);
    rewrite ?map_map; reflexivity.
Qed.

Lemma dry_run_reports_like_a_real_run_witness :
  Eks.report
    (Eks.scan Sample.parser (EksReport.with_dry_run (Sample.flags true true) true)
       (Sample.cluster [Sample.web] [Sample.old_job] Sample.always))
  = Eks.report
      (Eks.scan Sample.parser (EksReport.with_dry_run (Sample.flags true true) false)
         (Sample.cluster [Sample.web] [Sample.old_job] Sample.always)).
Proof.
  apply dry_run_reports_like_a_real_run. reflexivity.
Defined.

(** X21. When every delete command fails, the printed report and the exit
    code are those of the run with no deletion requested. *)
Theorem failed_deletes_print_like_no_deletes
    (fromisoformat : string -> option Z) (a : Eks.arguments) (w : Eks.world) :
  (forall history cmd, Eks.delete_exits_zero w history cmd = false) ->
  EksReport.print_report (Eks.report (Eks.scan fromisoformat a w))
  = EksReport.print_report
      (Eks.report (Eks.scan fromisoformat (EksReport.without_delete a) w))
  /\ EksReport.exit_code_of (Eks.main fromisoformat a w)
     = EksReport.exit_code_of
         (Eks.main fromisoformat (EksReport.without_delete a) w).
Proof.
  intros Hko.
  assert (Hr : Eks.report (Eks.scan fromisoformat a w)
               = Eks.report (Eks.scan fromisoformat (EksReport.without_delete a) w)).
  { rewrite !scan_fields. cbn [Eks.report].
    unfold Eks.cutoff_of, EksReport.without_delete.
    cbn [Eks.job_max_age_hours Eks.dry_run Eks.delete_crashloop Eks.delete_jobs].
    f_equal. rewrite recorded_all_fail by exact Hko. reflexivity. }
  split; [now rewrite Hr|].
  unfold Eks.main. destruct (Eks.kubeconfig_ok w); [|reflexivity].
  rewrite <- Hr.
  destruct (Eks.nonempty _ || Eks.nonempty _); reflexivity.
Qed.

Lemma failed_deletes_print_like_no_deletes_witness :
  EksReport.print_report
    (Eks.report
       (Eks.scan Sample.parser (Sample.flags true true)
          (Sample.cluster [Sample.web] [Sample.old_job] Sample.never)))
  = EksReport.print_report
      (Eks.report
         (Eks.scan Sample.parser (EksReport.without_delete (Sample.flags true true))
            (Sample.cluster [Sample.web] [Sample.old_job] Sample.never)))
  /\ EksReport.exit_code_of
       (Eks.main Sample.parser (Sample.flags true true)
          (Sample.cluster [Sample.web] [Sample.old_job] Sample.never))
     = EksReport.exit_code_of
         (Eks.main Sample.parser (EksReport.without_delete (Sample.flags true true))
            (Sample.cluster [Sample.web] [Sample.old_job] Sample.never)).
Proof.
  apply failed_deletes_print_like_no_deletes. reflexivity.
Defined.

Lemma replace_Z_app (s1 s2 : string) :
  Eks.replace_Z (s1 ++ s2) = (Eks.replace_Z s1 ++ Eks.replace_Z s2)%string.
Proof.
  induction s1 as [|c s1 IH]; [reflexivity|].
  cbn [String.append Eks.replace_Z]. rewrite IH.
  destruct (Ascii.eqb c "Z"); reflexivity.
Qed.

(** X22. The text given to the parser has no [Z]; a text without [Z] is
    unchanged, and such a text followed by [Z] ends in [+00:00] instead. *)
Theorem replace_Z_rewrites_the_designator (s : string) :
  ~ In "Z"%char (list_ascii_of_string (Eks.replace_Z s))
  /\ (~ In "Z"%char (list_ascii_of_string s) ->
      Eks.replace_Z s = s
      /\ Eks.replace_Z (s ++ "Z") = (s ++ "+00:00")%string).
Proof.
  split.
  - induction s as [|c s IH]; [intros []|].
    cbn [Eks.replace_Z]. destruct (Ascii.eqb c "Z") eqn:E.
    + cbn. intros [H|[H|[H|[H|[H|[H|H]]]]]]; try discriminate. now apply IH.
    + cbn. intros [H|H]; [|now apply IH].
      subst c. discriminate.
  - intros Hno.
    assert (Hid : Eks.replace_Z s = s).
    { induction s as [|c s IH]; [reflexivity|].
      cbn [Eks.replace_Z]. destruct (Ascii.eqb c "Z") eqn:E.
      - apply Ascii.eqb_eq in E. exfalso. apply Hno. now left.
      - rewrite IH; [reflexivity|]. intros H. apply Hno. now right. }
    split; [exact Hid|]. now rewrite replace_Z_app, Hid.
Qed.

Lemma replace_Z_rewrites_the_designator_witness :
  Eks.replace_Z "2024-01-01T00:00:00" = "2024-01-01T00:00:00"
  /\ Eks.replace_Z ("2024-01-01T00:00:00" ++ "Z")
     = ("2024-01-01T00:00:00" ++ "+00:00")%string.
Proof.
  apply (proj2 (replace_Z_rewrites_the_designator "2024-01-01T00:00:00")).
  cbn. intuition discriminate.
Defined.

End EksExtras.

(* ------------------------------------------------------------------ *)
(** ** The periods and the outputs of the cost report *)

Section CalendarFacts.

Import Calendar CostReport.

Lemma valid_iff (d : date) :
  valid d = true <->
  (1 <= year d <= 9999 /\ 1 <= month d <= 12
   /\ 1 <= day d <= days_in_month (year d) (month d))%Z.
Proof.
  unfold valid. rewrite !andb_true_iff, !Z.leb_le. tauto.
Qed.

Lemma days_in_month_bounds (y m : Z) : (28 <= days_in_month y m <= 31)%Z.
Proof.
  unfold days_in_month.
  destruct (m =? 2)%Z; [destruct (is_leap y); lia|].
  destruct ((m =? 4)%Z || (m =? 6)%Z || (m =? 9)%Z || (m =? 11)%Z); lia.
Qed.

(** X9. Except in January of year 1, the periods are: the first day of
    today's month up to today, and the first up to the last day of the month
    before, which in January is the December of the year before. *)
Theorem report_periods_previous_month (today : date) :
  valid today = true ->
  (1 < year today \/ 1 < month today)%Z ->
  let py := if (month today =? 1)%Z then (year today - 1)%Z else year today in
  let pm := if (month today =? 1)%Z then 12%Z else (month today - 1)%Z in
  report_periods today
  = Some (mk_periods (mk_date (year today) (month today) 1) today
                     (mk_date py pm 1)
                     (mk_date py pm (days_in_month py pm)))
  /\ valid (mk_date (year today) (month today) 1) = true
  /\ valid (mk_date py pm 1) = true
  /\ valid (mk_date py pm (days_in_month py pm)) = true.
Proof.
  intros Hv Hnot_first. cbv zeta. apply valid_iff in Hv.
  destruct today as [y m d]. cbn [year month day] in *.
  destruct Hv as (Hy & Hm & Hd).
  pose proof (days_in_month_bounds y m) as Hb.
  assert (Hfirst : valid (mk_date y m 1) = true).
  { apply valid_iff. cbn. lia. }
  unfold report_periods, replace_day. cbn [year month day]. rewrite Hfirst.
  unfold minus_one_day. cbn [year month day]. rewrite Z.ltb_irrefl.
  destruct (m =? 1)%Z eqn:Em.
  - apply Z.eqb_eq in Em. subst m.
    assert (Hy1 : (1 <? y)%Z = true) by (apply Z.ltb_lt; lia).
    rewrite Z.ltb_irrefl, Hy1. cbn [year month day].
    assert (Hp : valid (mk_date (y - 1) 12 1) = true).
    { apply valid_iff. cbn. lia. }
    rewrite Hp. repeat split; try reflexivity.
    apply valid_iff. cbn. lia.
  - apply Z.eqb_neq in Em.
    assert (Hm1 : (1 <? m)%Z = true) by (apply Z.ltb_lt; lia).
    rewrite Hm1. cbn [year month day].
    pose proof (days_in_month_bounds y (m - 1)) as Hb'.
    assert (Hp : valid (mk_date y (m - 1) 1) = true).
    { apply valid_iff. cbn. lia. }
    rewrite Hp. repeat split; try reflexivity.
    apply valid_iff. cbn. lia.
Qed.

Lemma report_periods_previous_month_witness :
  report_periods (mk_date 2024 3 15)
  = Some (mk_periods (mk_date 2024 3 1) (mk_date 2024 3 15)
                     (mk_date 2024 2 1) (mk_date 2024 2 29))
  /\ valid (mk_date 2024 3 1) = true
  /\ valid (mk_date 2024 2 1) = true
  /\ valid (mk_date 2024 2 29) = true.
Proof.
  apply (report_periods_previous_month (mk_date 2024 3 15)).
  - reflexivity.
  - left. reflexivity.
Defined.

Lemma digit_inj (n m : Z) : digit n = digit m -> (n mod 10 = m mod 10)%Z.
Proof.
  unfold digit. intros H. injection H as H.
  apply (f_equal nat_of_ascii) in H.
  pose proof (Z.mod_pos_bound n 10 ltac:(lia)) as Hn.
  pose proof (Z.mod_pos_bound m 10 ltac:(lia)) as Hm.
  rewrite !nat_ascii_embedding in H by lia. lia.
Qed.

Theorem isoformat_injective (d1 d2 : date) :
  valid d1 = true -> valid d2 = true ->
  isoformat d1 = isoformat d2 -> d1 = d2.
Proof.
  intros H1 H2 E. apply valid_iff in H1, H2.
  destruct d1 as [y1 m1 a1], d2 as [y2 m2 a2]. cbn [year month day] in *.
  pose proof (days_in_month_bounds y1 m1). pose proof (days_in_month_bounds y2 m2).
  unfold isoformat in E. cbn [year month day] in E.
  unfold digit in E at 1 2 3 4 5 6 7 8 9 10 11 12 13 14 15 16.
  cbn [String.append] in E.
  injection E as E1 E2 E3 E4 E5 E6 E7 E8.
  assert (D : forall n m, ascii_of_nat (48 + Z.to_nat (n mod 10))
                          = ascii_of_nat (48 + Z.to_nat (m mod 10)) ->
                          (n mod 10 = m mod 10)%Z).
  { intros n m H'. apply digit_inj. unfold digit. now rewrite H'. }
  apply D in E1, E2, E3, E4, E5, E6, E7, E8.
  f_equal; Z.div_mod_to_equations; lia.
Qed.

(** X10. The start and the end of the current period are the same text
    exactly on the first day of a month. *)
Theorem current_period_empty_on_first_day (today : date) (p : periods) :
  valid today = true ->
  report_periods today = Some p ->
  isoformat (first_day_current p) = isoformat (today_date p) <-> day today = 1%Z.
Proof.
  intros Hv Hp. unfold report_periods, replace_day in Hp.
  destruct (valid (mk_date (year today) (month today) 1)) eqn:Hfirst;
    [|discriminate].
  destruct (minus_one_day _) as [last|]; [|discriminate].
  destruct (valid (mk_date (year last) (month last) 1)); [|discriminate].
  injection Hp as <-. cbn [first_day_current today_date]. split.
  - intros E. apply isoformat_injective in E; try assumption.
    rewrite <- E. reflexivity.
  - intros Hd. destruct today as [y m d]. cbn in Hd. now subst d.
Qed.

Lemma current_period_empty_on_first_day_witness :
  isoformat (mk_date 2025 1 1) = isoformat (mk_date 2025 1 1) <-> 1%Z = 1%Z.
Proof.
  apply (current_period_empty_on_first_day (mk_date 2025 1 1)
           (mk_periods (mk_date 2025 1 1) (mk_date 2025 1 1)
                       (mk_date 2024 12 1) (mk_date 2024 12 31)));
    reflexivity.
Defined.

End CalendarFacts.

Section CostReportFacts.

Import Cost CostReport.

Local Open Scope Q_scope.

Lemma StronglySorted_app_inv {A} (R : A -> A -> Prop) (l1 l2 : list A) :
  StronglySorted R (l1 ++ l2) ->
  forall x y, In x l1 -> In y l2 -> R x y.
Proof.
  induction l1 as [|z l1 IH]; intros Hs x y Hx Hy; [contradiction|].
  cbn in Hs. inversion Hs as [|? ? Hs' Hz]; subst.
  destruct Hx as [->|Hx].
  - rewrite Forall_forall in Hz. apply Hz, in_or_app. now right.
  - now apply IH.
Qed.

Lemma sorted_prefix_dominates {A} (R : A -> A -> Prop) (n : nat) (l : list A)
    (x y : A) :
  StronglySorted R l -> In x (firstn n l) -> In y (skipn n l) -> R x y.
Proof.
  intros Hs. rewrite <- (firstn_skipn n l) in Hs.
  now apply StronglySorted_app_inv.
Qed.

(** X11. The services the console report lists are the costliest ones: a
    service of the snapshot that is not listed costs no more than any listed
    one. *)
Theorem console_lists_the_costliest_services
    (groups : list cost_group) (x y : string * Q) :
  let current_costs := get_monthly_cost_by_service groups in
  In x (listed_services current_costs) ->
  In y current_costs ->
  ~ In (fst y) (map fst (listed_services current_costs)) ->
  snd y <= snd x.
Proof.
  cbv zeta. unfold listed_services. intros Hx Hy Hnot.
  apply (sorted_prefix_dominates (fun a b : string * Q => snd b <= snd a) 15
           (get_monthly_cost_by_service groups)).
  - apply snapshot_sorted.
  - exact Hx.
  - rewrite <- (firstn_skipn 15 (get_monthly_cost_by_service groups)) in Hy.
    apply in_app_or in Hy. destruct Hy as [Hy|Hy]; [|exact Hy].
    exfalso. apply Hnot. now apply in_map.
Qed.

(** X12. The anomalies the Slack message lists are those with the largest
    percentages: an anomaly that is not listed has a percentage no larger
    than any listed one. *)
Theorem slack_lists_the_largest_changes
    (current previous : dict Q) (threshold_pct : Q) (x y : anomaly) :
  let anomalies := detect_anomalies current previous threshold_pct in
  In x (posted_anomalies anomalies) ->
  In y anomalies ->
  ~ In y (posted_anomalies anomalies) ->
  change_pct y <= change_pct x.
Proof.
  cbv zeta. unfold posted_anomalies. intros Hx Hy Hnot.
  apply (sorted_prefix_dominates (fun a b : anomaly => change_pct b <= change_pct a) 5
           (detect_anomalies current previous threshold_pct)).
  - apply sorted_desc_sorted.
  - exact Hx.
  - rewrite <- (firstn_skipn 5 (detect_anomalies current previous threshold_pct)) in Hy.
    apply in_app_or in Hy. destruct Hy as [Hy|Hy]; [contradiction | exact Hy].
Qed.

(** X13. The console report has 14 fixed lines, a line for each of at most
    15 services and, when there are anomalies, three more lines and a line
    for every anomaly. *)
Theorem console_lines_count
    (format_float : string -> Q -> string) (str_float : Q -> string)
    (current_costs previous_costs : dict Q) (anomalies : list anomaly)
    (current_period previous_period : string * string) :
  List.length
    (console_lines format_float str_float current_costs previous_costs
       anomalies current_period previous_period)
  = (14 + Nat.min 15 (List.length current_costs)
     + match anomalies with
       | [] => 0
       | _ :: _ => 3 + List.length anomalies
       end)%nat
  /\ forall a, In a anomalies ->
       In (anomaly_line format_float str_float a)
          (console_lines format_float str_float current_costs previous_costs
             anomalies current_period previous_period).
Proof.
  unfold console_lines, listed_services. split.
  - destruct anomalies as [|a0 rest]; cbn [nonempty];
      rewrite ?length_app, ?length_map, ?length_firstn; cbn [List.length]; lia.
  - intros a Ha. destruct anomalies as [|a0 rest]; [contradiction|].
    cbn [nonempty]. apply in_or_app. left. apply in_or_app. right.
    now apply in_map.
Qed.

End CostReportFacts.

(* ------------------------------------------------------------------ *)
(** ** Sample runs of the properties above *)

Lemma console_lists_the_costliest_services_witness :
  snd ("s16", 100 # 100) <= snd ("s01", 1600 # 100).
Proof.
  apply (console_lists_the_costliest_services
           [("s01", 16); ("s02", 15); ("s03", 14); ("s04", 13); ("s05", 12);
            ("s06", 11); ("s07", 10); ("s08", 9); ("s09", 8); ("s10", 7);
            ("s11", 6); ("s12", 5); ("s13", 4); ("s14", 3); ("s15", 2);
            ("s16", 1)]
           ("s01", 1600 # 100) ("s16", 100 # 100)).
  - now left.
  - vm_compute. tauto.
  - vm_compute. intuition discriminate.
Defined.

Lemma slack_lists_the_largest_changes_witness :
  Cost.change_pct (Cost.mk_anomaly "f" 11 0 100 Cost.New_service_with_spend)
  <= Cost.change_pct (Cost.mk_anomaly "a" 16 0 100 Cost.New_service_with_spend).
Proof.
  apply (slack_lists_the_largest_changes
           [("a", 16); ("b", 15); ("c", 14); ("d", 13); ("e", 12); ("f", 11)]
           [] 25).
  - now left.
  - vm_compute. tauto.
  - vm_compute. intuition discriminate.
Defined.

Lemma restart_count_never_decides_witness :
  In (Eks.mk_pod_entry "prod" "web-1" "proxy" "ImagePullBackOff" 0%Z)
     (Eks.crashloop_pods
        (Eks.report
           (Eks.scan Sample.parser (Sample.flags false false)
              (Sample.cluster [Sample.web] [] Sample.never)))) <->
  exists (p : Eks.pod) (cs : Eks.container_status),
    In p [Sample.web]
    /\ In cs (Eks.container_statuses_of p)
    /\ In (Eks.waiting_reason_of cs)
          ["CrashLoopBackOff"; "Error"; "OOMKilled"; "ImagePullBackOff"]
    /\ Eks.mk_pod_entry "prod" "web-1" "proxy" "ImagePullBackOff" 0%Z
       = Eks.pod_entry_of p cs.
Proof.
  apply (restart_count_never_decides Sample.parser (Sample.flags false false)
           (Sample.cluster [Sample.web] [] Sample.never) [Sample.web]).
  reflexivity.
Defined.


Lemma dry_run_flag_on_every_delete_witness :
  List.length
    ["kubectl"; "delete"; "job"; "report-1"; "-n"; "batch"; "--dry-run=client"]
  = 7%nat
  /\ last ["kubectl"; "delete"; "job"; "report-1"; "-n"; "batch"; "--dry-run=client"]
       ""
     = "--dry-run=client".
Proof.
  apply (dry_run_flag_on_every_delete Sample.parser
           (EksReport.with_dry_run (Sample.flags false true) true)
           (Sample.cluster [] [Sample.old_job] Sample.always)).
  now left.
Defined.

(* ------------------------------------------------------------------ *)
(** ** The Slack request *)

Section SlackRequest.

Import Cost CostReport.

Variable format_float : string -> Q -> string.
Variable str_float : Q -> string.

Lemma nonempty_firstn {A} (n : nat) (l : list A) :
  nonempty (firstn (S n) l) = nonempty l.
Proof. destruct l; reflexivity. Qed.

(** X23. The Slack request is the one for the first five anomalies alone:
    later anomalies change nothing in it.  No request is sent exactly when
    the webhook is missing or empty. *)
Theorem slack_request_from_first_five
    (webhook_url : option string) (total : Q) (anomalies : list anomaly)
    (period : string * string) :
  post_to_slack format_float str_float webhook_url total anomalies period
  = post_to_slack format_float str_float webhook_url total
      (firstn 5 anomalies) period
  /\ (post_to_slack format_float str_float webhook_url total anomalies period
      = None <->
      webhook_url = None \/ webhook_url = Some "").
Proof.
  split.
  - unfold post_to_slack, slack_text, posted_anomalies.
    rewrite nonempty_firstn, firstn_firstn. reflexivity.
  - unfold post_to_slack. destruct webhook_url as [url|].
    + destruct (String.eqb url "") eqn:E.
      * apply String.eqb_eq in E. subst url. intuition.
      * apply String.eqb_neq in E. split; [discriminate|].
        intros [H|H]; [discriminate|]. injection H as ->. contradiction.
    + intuition.
Qed.

End SlackRequest.

(* ------------------------------------------------------------------ *)
(** ** The binary64 cost functions *)

Section Cost64Facts.

Import PrimFloat Cost64.

#[local] Set Warnings "-inexact-float".

Variable round : float -> nat -> float.

Lemma insert_desc64_perm {A} (key : A -> float) (x : A) (l : list A) :
  Permutation (x :: l) (Cost64.insert_desc key x l).
Proof.
  induction l as [|y l IH]; cbn [Cost64.insert_desc].
  - apply Permutation_refl.
  - destruct (key x <? key y)%float.
    + eapply perm_trans; [apply perm_swap|]. now apply perm_skip.
    + apply Permutation_refl.
Qed.

Lemma sorted_desc64_perm {A} (key : A -> float) (l : list A) :
  Permutation l (Cost64.sorted_desc key l).
Proof.
  induction l as [|x l IH]; cbn [Cost64.sorted_desc].
  - constructor.
  - eapply perm_trans; [apply perm_skip, IH | apply insert_desc64_perm].
Qed.

Lemma detect_loop64_acc (previous : dict float) (threshold_pct : float)
    (items : list (string * float)) (anomalies : list anomaly) :
  detect_loop round items previous threshold_pct anomalies
  = anomalies ++ flat_map (anomalies_of_item round previous threshold_pct) items.
Proof.
  revert anomalies.
  induction items as [|[service current_cost] rest IH]; intros anomalies.
  - cbn. now rewrite app_nil_r.
  - cbn [flat_map]. unfold anomalies_of_item. cbn [detect_loop].
    destruct (dict_get previous service 0 =? 0)%float.
    + destruct (10 <? current_cost)%float; rewrite IH;
        [now rewrite <- app_assoc | reflexivity].
    + destruct (threshold_pct <=? _)%float; rewrite IH;
        [now rewrite <- app_assoc | reflexivity].
Qed.

Lemma anomalies_of_item64_In (previous : dict float) (threshold_pct : float)
    (k : string) (c : float) (a : anomaly) :
  In a (anomalies_of_item round previous threshold_pct (k, c)) <->
  service a = k /\ current a = c
  /\ Cost64.previous a = dict_get previous k 0%float
  /\ (new_rule previous a \/ increase_rule round previous threshold_pct a).
Proof.
  unfold anomalies_of_item, new_rule, increase_rule, percent_change.
  cbn [detect_loop].
  destruct (dict_get_lookup previous k 0%float) as [[Hl Hg]|[p [Hl Hg]]];
    rewrite Hg.
  - (* no baseline *)
    change (0 =? 0)%float with true. cbv iota.
    destruct (10 <? c)%float eqn:E; cbn [app In].
    + split.
      * intros [<-|[]]. cbn. rewrite Hl. intuition.
      * intros (<- & <- & Hp & [(_ & _ & Hc & Hw)|(p & Hp' & _)]).
        -- left. destruct a; cbn in *. congruence.
        -- congruence.
    + split; [intros []|].
      intros (<- & <- & _ & [(_ & Hlt & _)|(p & Hp' & _)]); congruence.
  - destruct (p =? 0)%float eqn:Ez.
    + destruct (10 <? c)%float eqn:E; cbn [app In].
      * split.
        -- intros [<-|[]]. cbn. rewrite Hl. intuition eauto.
        -- intros (<- & <- & Hp & [(_ & _ & Hc & Hw)|(p' & Hp' & Hnz & _)]).
           ++ left. destruct a; cbn in *. congruence.
           ++ congruence.
      * split; [intros []|].
        intros (<- & <- & _ & [(_ & Hlt & _)|(p' & Hp' & Hnz & _)]); congruence.
    + destruct (threshold_pct <=? (c - p) / p * 100)%float eqn:E; cbn [app In].
      * split.
        -- intros [<-|[]]. cbn. rewrite Hl.
           repeat split; try reflexivity. right. exists p. intuition.
        -- intros (<- & <- & Hp & [([Hn|(p' & Hp' & Hz)] & _)|(p' & Hp' & _ & _ & Hc & Hw)]).
           ++ congruence.
           ++ congruence.
           ++ left. assert (p' = p) by congruence. subst p'.
              destruct a; cbn in *. congruence.
      * split; [intros []|].
        intros (<- & <- & _ & [([Hn|(p' & Hp' & Hz)] & _)|(p' & Hp' & _ & Hle & _)]).
        -- congruence.
        -- congruence.
        -- assert (p' = p) by congruence. subst p'. congruence.
Qed.

Lemma anomalies_of_item64_service (previous : dict float) (threshold_pct : float)
    (item : string * float) :
  subsequence (map service (anomalies_of_item round previous threshold_pct item))
              [fst item].
Proof.
  destruct item as [k c]. unfold anomalies_of_item. cbn [detect_loop fst].
  destruct (_ =? 0)%float.
  - destruct (10 <? c)%float; cbn;
      [apply subsequence_refl | apply subsequence_nil_l].
  - destruct (_ <=? _)%float; cbn;
      [apply subsequence_refl | apply subsequence_nil_l].
Qed.

Lemma unsorted_services64 (previous : dict float) (threshold_pct : float)
    (current : dict float) :
  subsequence
    (map service
       (flat_map (anomalies_of_item round previous threshold_pct) current))
    (dict_keys current).
Proof.
  induction current as [|item rest IH]; [constructor|].
  cbn [flat_map dict_keys map]. rewrite map_app.
  change (fst item :: map fst rest) with ([fst item] ++ dict_keys rest).
  apply subsequence_app; [apply anomalies_of_item64_service | exact IH].
Qed.

Lemma collect_costs64_NoDup (groups : list cost_group) (costs : dict float) :
  NoDup (dict_keys costs) ->
  NoDup (dict_keys (collect_costs round groups costs)).
Proof.
  revert costs. induction groups as [|[service amount] rest IH];
    intros costs Hn; [exact Hn|].
  cbn [collect_costs]. destruct (0.01 <? amount)%float.
  - apply IH. now apply dict_set_NoDup.
  - now apply IH.
Qed.

Lemma collect_costs64_app (g1 g2 : list cost_group) (costs : dict float) :
  collect_costs round (g1 ++ g2) costs
  = collect_costs round g2 (collect_costs round g1 costs).
Proof.
  revert costs. induction g1 as [|[service amount] g1 IH]; intros costs;
    [reflexivity|].
  cbn [app collect_costs]. destruct (0.01 <? amount)%float; apply IH.
Qed.

Lemma collect_costs64_lookup_skip (groups : list cost_group)
    (costs : dict float) (k : string) :
  (forall amount, In (k, amount) groups -> (0.01 <? amount)%float = false) ->
  dict_lookup (collect_costs round groups costs) k = dict_lookup costs k.
Proof.
  revert costs. induction groups as [|[service amount] rest IH]; intros costs Hk;
    [reflexivity|].
  cbn [collect_costs].
  assert (Hrest : forall amount', In (k, amount') rest ->
                                  (0.01 <? amount')%float = false).
  { intros amount' Hin. apply Hk. now right. }
  destruct (0.01 <? amount)%float eqn:E; [|now apply IH].
  rewrite (IH _ Hrest). apply dict_lookup_set_other. intros ->.
  rewrite (Hk amount) in E; [discriminate | now left].
Qed.

End Cost64Facts.

Section Cost64Claims.

Import PrimFloat Cost64.

#[local] Set Warnings "-inexact-float".

(** C1. In binary64, as the source computes: exactly the keys of [current]
    that meet one of the two rules get an anomaly, each of them one.  A key
    whose baseline is absent or equal to zero and whose cost is over 10
    gets one with the fixed percentage 100 and the new-service reason; a
    key with a baseline other than zero whose percentage change, computed
    as [(current - previous) / previous * 100], is at least the threshold
    gets one with that percentage rounded to one decimal and the increase
    reason; there is no other anomaly. *)
Theorem detect_anomalies_membership_binary64
    (round : float -> nat -> float)
    (current previous : dict float) (threshold_pct : float) :
  NoDup (dict_keys current) ->
  NoDup (map service (detect_anomalies round current previous threshold_pct))
  /\ forall a : anomaly,
       In a (detect_anomalies round current previous threshold_pct) <->
       In (service a, Cost64.current a) current
       /\ Cost64.previous a = dict_get previous (service a) 0%float
       /\ (new_rule previous a \/ increase_rule round previous threshold_pct a).
Proof.
  intros Hn. unfold detect_anomalies. rewrite detect_loop64_acc.
  cbn [app]. split.
  - eapply Permutation_NoDup.
    + apply Permutation_map, sorted_desc64_perm.
    + eapply subsequence_NoDup; [apply unsorted_services64 | exact Hn].
  - intros a. split.
    + intros Ha.
      apply (Permutation_in _ (Permutation_sym (sorted_desc64_perm _ _))) in Ha.
      apply in_flat_map in Ha as ([k c] & Hin & Ha).
      apply anomalies_of_item64_In in Ha.
      destruct Ha as (<- & <- & Hp & Hr). auto.
    + intros (Hin & Hp & Hr).
      apply (Permutation_in _ (sorted_desc64_perm _ _)).
      apply in_flat_map. exists (service a, Cost64.current a).
      split; [exact Hin|]. apply anomalies_of_item64_In. auto.
Qed.

Lemma detect_anomalies_membership_binary64_witness :
  let current := [("EC2", 150%float); ("Lambda", 15%float); ("S3", 0.70%float)] in
  let previous := [("EC2", 100%float); ("S3", 0.56%float)] in
  NoDup (map service (detect_anomalies py_round64 current previous 25%float))
  /\ forall a : anomaly,
       In a (detect_anomalies py_round64 current previous 25%float) <->
       In (service a, Cost64.current a) current
       /\ Cost64.previous a = dict_get previous (service a) 0%float
       /\ (new_rule previous a
           \/ increase_rule py_round64 previous 25%float a).
Proof.
  apply detect_anomalies_membership_binary64.
  repeat constructor; cbn; intuition discriminate.
Defined.

(** X3. In binary64: when a service has several groups, its cost in the
    snapshot is [round(amount, 2)] for the last amount over 0.01. *)
Theorem get_monthly_cost_by_service_last_wins_binary64
    (round : float -> nat -> float)
    (before after : list cost_group) (k : string) (amount : float) :
  (0.01 <? amount)%float = true ->
  (forall amount', In (k, amount') after -> (0.01 <? amount')%float = false) ->
  dict_lookup
    (get_monthly_cost_by_service round (before ++ (k, amount) :: after)) k
  = Some (round amount 2%nat).
Proof.
  intros Hlt Hafter. unfold get_monthly_cost_by_service.
  rewrite <- (dict_lookup_perm _ _ k
                (collect_costs64_NoDup round _ [] (NoDup_nil _))
                (sorted_desc64_perm snd _)).
  rewrite collect_costs64_app. cbn [collect_costs]. rewrite Hlt.
  rewrite collect_costs64_lookup_skip by exact Hafter.
  apply dict_lookup_set_same.
Qed.

Lemma get_monthly_cost_by_service_last_wins_binary64_witness :
  dict_lookup
    (get_monthly_cost_by_service py_round64
       ([("S3", 7%float)] ++ ("EC2", 2.675%float) :: [("EC2", 0.001%float)]))
    "EC2"
  = Some (py_round64 2.675%float 2).
Proof.
  apply get_monthly_cost_by_service_last_wins_binary64.
  - reflexivity.
  - intros amount' [H|[]]. injection H as <-. reflexivity.
Defined.

(** The source's arithmetic on three inputs where it departs from exact
    arithmetic: 0.70 against 0.56 is under a threshold of 25, 0.77 against
    0.70 is over a threshold just above 10, and 2.675 rounds down. *)
Example binary64_threshold_not_reached :
  detect_anomalies py_round64 [("svc", 0.70%float)] [("svc", 0.56%float)] 25%float
  = [].
Proof. reflexivity. Qed.

Example binary64_threshold_reached :
  map service
    (detect_anomalies py_round64 [("svc", 0.77%float)] [("svc", 0.70%float)]
       10.000000000000002%float)
  = ["svc"].
Proof. reflexivity. Qed.

Example binary64_round_half :
  py_round64 2.675%float 2 = 2.67%float /\ py_round64 1.015%float 2 = 1.01%float.
Proof. split; reflexivity. Qed.

End Cost64Claims.

(* ------------------------------------------------------------------ *)
(** ** The job scan with its exceptions *)

Section CheckedScan.

Import Eks.

Variable fromisoformat : string -> option Datetime.datetime.

Lemma cutoff_of_Some (w : world) (max_age_hours cutoff : Z) :
  EksChecked.cutoff_of w max_age_hours = Some cutoff ->
  cutoff = (now w - max_age_hours * microseconds_per_hour)%Z.
Proof.
  unfold EksChecked.cutoff_of, Datetime.timedelta_hours, Datetime.minus.
  destruct (_ && _); [|discriminate].
  destruct (_ && _); [|discriminate].
  intros H. injection H as <-. reflexivity.
Qed.

Lemma scan_jobs_checked_returns (w : world) (cutoff : Z) (dry_run delete : bool)
    (items : list job) (st : run_state) :
  existsb (EksChecked.compares_naive fromisoformat) items = false ->
  EksChecked.scan_jobs fromisoformat w cutoff dry_run delete items st
  = EksChecked.Returned
      (scan_jobs (EksChecked.instant_of fromisoformat) w cutoff dry_run delete
         items st).
Proof.
  revert st. induction items as [|j rest IH]; intros st Hok; [reflexivity|].
  cbn [existsb] in Hok. apply orb_false_iff in Hok as [Hj Hrest].
  cbn [EksChecked.scan_jobs scan_jobs].
  unfold EksChecked.compares_naive in Hj. unfold EksChecked.instant_of at 1.
  destruct (fromisoformat _) as [creation_time|]; cbn [option_map];
    [|now apply IH].
  destruct (existsb is_terminal_type (conditions_of j)); cbn [andb] in *;
    [|now apply IH].
  apply negb_false_iff in Hj. rewrite Hj.
  destruct (Datetime.micros creation_time <? cutoff)%Z; [|now apply IH].
  destruct delete; [|now apply IH].
  destruct (kubectl_delete w "job" _ _ dry_run _) as [[|] st']; now apply IH.
Qed.

Lemma scan_jobs_checked_raises (w : world) (cutoff : Z) (dry_run delete : bool)
    (items : list job) (st : run_state) :
  existsb (EksChecked.compares_naive fromisoformat) items = true ->
  exists st',
    EksChecked.scan_jobs fromisoformat w cutoff dry_run delete items st
    = EksChecked.Raised EksChecked.TypeError st'.
Proof.
  revert st. induction items as [|j rest IH]; intros st Hbad; [discriminate|].
  cbn [existsb] in Hbad. cbn [EksChecked.scan_jobs].
  unfold EksChecked.compares_naive in Hbad at 1.
  destruct (fromisoformat _) as [creation_time|]; cbn [orb] in Hbad;
    [|now apply IH].
  destruct (existsb is_terminal_type (conditions_of j)); cbn [andb orb] in Hbad;
    [|now apply IH].
  destruct (Datetime.aware creation_time); cbn [negb orb] in Hbad;
    [|now exists st].
  destruct (Datetime.micros creation_time <? cutoff)%Z; [|now apply IH].
  destruct delete; [|now apply IH].
  destruct (kubectl_delete w "job" _ _ dry_run _) as [[|] st']; now apply IH.
Qed.

Lemma find_completed_jobs_checked_returns (a : arguments) (w : world)
    (st : run_state) :
  EksChecked.job_scan_raises fromisoformat a w = false ->
  EksChecked.find_completed_jobs fromisoformat w st (job_max_age_hours a)
    (dry_run a) (delete_jobs a)
  = EksChecked.Returned
      (find_completed_jobs (EksChecked.instant_of fromisoformat) w st
         (job_max_age_hours a) (dry_run a) (delete_jobs a)).
Proof.
  unfold EksChecked.job_scan_raises, EksChecked.find_completed_jobs,
    find_completed_jobs.
  destruct (list_jobs w) as [items|]; [|reflexivity].
  destruct (EksChecked.cutoff_of w (job_max_age_hours a)) as [cutoff|] eqn:Ec;
    [|discriminate].
  intros Hok. apply cutoff_of_Some in Ec. rewrite <- Ec.
  now apply scan_jobs_checked_returns.
Qed.

Lemma find_completed_jobs_checked_raises (a : arguments) (w : world)
    (st : run_state) :
  EksChecked.job_scan_raises fromisoformat a w = true ->
  exists e st',
    EksChecked.find_completed_jobs fromisoformat w st (job_max_age_hours a)
      (dry_run a) (delete_jobs a)
    = EksChecked.Raised e st'.
Proof.
  unfold EksChecked.job_scan_raises, EksChecked.find_completed_jobs.
  destruct (list_jobs w) as [items|]; [|discriminate].
  destruct (EksChecked.cutoff_of w (job_max_age_hours a)) as [cutoff|].
  - intros Hbad.
    destruct (scan_jobs_checked_raises w cutoff (dry_run a) (delete_jobs a)
                items st Hbad) as [st' Hst'].
    eauto.
  - intros _. eauto.
Qed.

End CheckedScan.

Lemma checked_scan_cases
    (fromisoformat : string -> option Datetime.datetime)
    (a : Eks.arguments) (w : Eks.world) :
  (EksChecked.job_scan_raises fromisoformat a w = false ->
   EksChecked.scan fromisoformat a w
   = EksChecked.Returned
       (Eks.scan (EksChecked.instant_of fromisoformat) a w))
  /\ (EksChecked.job_scan_raises fromisoformat a w = true ->
      exists e st, EksChecked.scan fromisoformat a w = EksChecked.Raised e st).
Proof.
  unfold EksChecked.scan, Eks.scan. split; intros H.
  - now apply find_completed_jobs_checked_returns.
  - now apply find_completed_jobs_checked_raises.
Qed.

(** X24. The run with exceptions and the run without them: the job scan
    raises exactly when [now - timedelta(hours=max_age)] is out of range or
    a job with a terminal condition has a timestamp that parses without an
    offset; when it does not raise, both scans end as in [Eks.scan], with
    the same report and the same delete commands. *)
Theorem job_scan_raises_or_agrees
    (fromisoformat : string -> option Datetime.datetime)
    (a : Eks.arguments) (w : Eks.world) :
  (EksChecked.job_scan_raises fromisoformat a w = false ->
   EksChecked.scan fromisoformat a w
   = EksChecked.Returned
       (Eks.scan (EksChecked.instant_of fromisoformat) a w))
  /\ (EksChecked.job_scan_raises fromisoformat a w = true ->
      exists e st, EksChecked.scan fromisoformat a w = EksChecked.Raised e st).
Proof. apply checked_scan_cases. Qed.

Lemma job_scan_raises_or_agrees_witness :
  EksChecked.scan SampleChecked.parser (SampleChecked.max_age 24)
    (Sample.cluster [Sample.web] [Sample.old_job] Sample.never)
  = EksChecked.Returned
      (Eks.scan (EksChecked.instant_of SampleChecked.parser)
         (SampleChecked.max_age 24)
         (Sample.cluster [Sample.web] [Sample.old_job] Sample.never)).
Proof.
  apply (proj1 (job_scan_raises_or_agrees SampleChecked.parser
                  (SampleChecked.max_age 24)
                  (Sample.cluster [Sample.web] [Sample.old_job] Sample.never))).
  reflexivity.
Defined.

Lemma checked_scan_returned
    (fromisoformat : string -> option Datetime.datetime)
    (a : Eks.arguments) (w : Eks.world) (st : Eks.run_state) :
  EksChecked.scan fromisoformat a w = EksChecked.Returned st ->
  EksChecked.job_scan_raises fromisoformat a w = false
  /\ st = Eks.scan (EksChecked.instant_of fromisoformat) a w.
Proof.
  intros Hst.
  destruct (checked_scan_cases fromisoformat a w) as [Hok Hbad].
  destruct (EksChecked.job_scan_raises fromisoformat a w).
  - destruct (Hbad eq_refl) as (e & st' & Hr). congruence.
  - split; [reflexivity|]. rewrite (Hok eq_refl) in Hst. congruence.
Qed.

(** C8, amended. When [now - timedelta(hours=max_age)] is a datetime and
    every listed job with a terminal condition whose timestamp parses has an
    offset, the scan returns, and a listed job whose creation timestamp
    parses is filed under [completed_jobs] exactly when one of its
    conditions has type Complete or Failed and the time since its creation
    is strictly more than the maximum age in hours. *)
Theorem stale_job_rule_checked
    (fromisoformat : string -> option Datetime.datetime)
    (a : Eks.arguments) (w : Eks.world) (items : list Eks.job) (j : Eks.job)
    (creation_time : Datetime.datetime) (cutoff : Z) :
  Eks.list_jobs w = Some items ->
  NoDup (map Eks.job_id items) ->
  In j items ->
  fromisoformat (Eks.replace_Z (Eks.get_or (Eks.creationTimestamp j) ""))
    = Some creation_time ->
  EksChecked.cutoff_of w (Eks.job_max_age_hours a) = Some cutoff ->
  (forall j' t,
      In j' items ->
      fromisoformat (Eks.replace_Z (Eks.get_or (Eks.creationTimestamp j') ""))
        = Some t ->
      existsb Eks.is_terminal_type (Eks.conditions_of j') = true ->
      Datetime.aware t = true) ->
  exists st,
    EksChecked.scan fromisoformat a w = EksChecked.Returned st
    /\ (In (Eks.job_entry_of j) (Eks.completed_jobs (Eks.report st)) <->
        (exists c : Eks.job_condition,
            In c (Eks.conditions_of j)
            /\ (Eks.cond_type c = Some "Complete"
                \/ Eks.cond_type c = Some "Failed"))
        /\ (Eks.now w - Datetime.micros creation_time
            > Eks.job_max_age_hours a * Eks.microseconds_per_hour)%Z).
Proof.
  intros Hl Hn Hj Ht Hc Haware.
  assert (Hok : EksChecked.job_scan_raises fromisoformat a w = false).
  { unfold EksChecked.job_scan_raises. rewrite Hl, Hc.
    destruct (existsb _ items) eqn:E; [|reflexivity].
    apply existsb_exists in E as (j' & Hj' & Hbad).
    unfold EksChecked.compares_naive in Hbad.
    destruct (fromisoformat
                (Eks.replace_Z (Eks.get_or (Eks.creationTimestamp j') "")))
      as [t|] eqn:Et; [|discriminate].
    apply andb_true_iff in Hbad as [Hterm Hnaive].
    rewrite (Haware j' t Hj' Et Hterm) in Hnaive. discriminate. }
  exists (Eks.scan (EksChecked.instant_of fromisoformat) a w). split.
  - now apply checked_scan_cases.
  - apply (stale_job_rule (EksChecked.instant_of fromisoformat) a w items j);
      try assumption.
    unfold EksChecked.instant_of. now rewrite Ht.
Qed.

Lemma stale_job_rule_checked_witness :
  exists st,
    EksChecked.scan SampleChecked.parser (SampleChecked.max_age 24)
      (Sample.cluster [] [Sample.old_job; Sample.undated_job] Sample.never)
    = EksChecked.Returned st
    /\ (In (Eks.job_entry_of Sample.old_job)
           (Eks.completed_jobs (Eks.report st)) <->
        (exists c : Eks.job_condition,
            In c (Eks.conditions_of Sample.old_job)
            /\ (Eks.cond_type c = Some "Complete"
                \/ Eks.cond_type c = Some "Failed"))
        /\ (1704240000000000 - 1704067200000000
            > 24 * Eks.microseconds_per_hour)%Z).
Proof.
  apply (stale_job_rule_checked SampleChecked.parser (SampleChecked.max_age 24)
           (Sample.cluster [] [Sample.old_job; Sample.undated_job] Sample.never)
           [Sample.old_job; Sample.undated_job] Sample.old_job
           (Datetime.mk_datetime 1704067200000000 true) 1704153600000000%Z).
  - reflexivity.
  - repeat constructor; cbn; intuition discriminate.
  - now left.
  - reflexivity.
  - reflexivity.
  - intros j' t [<-|[<-|[]]]; cbn; intros H; try discriminate.
    injection H as <-. reflexivity.
Defined.

(** C8 fails on two inputs.  A Complete job that is two days old, with a
    timestamp that has no offset and a maximum age of 24 hours: the
    comparison raises [TypeError] and the job is not filed.  A Complete job
    that is two days old, with a maximum age of -80000000 hours: the
    subtraction raises [OverflowError] and the job is not filed. *)
Lemma stale_job_scan_raises :
  (let w := Sample.cluster [] [SampleChecked.offsetless_job] Sample.never in
   SampleChecked.parser
     (Eks.replace_Z
        (Eks.get_or (Eks.creationTimestamp SampleChecked.offsetless_job) ""))
   = Some (Datetime.mk_datetime 1704067200000000 false)
   /\ existsb Eks.is_terminal_type (Eks.conditions_of SampleChecked.offsetless_job)
      = true
   /\ (Eks.now w - 1704067200000000 > 24 * Eks.microseconds_per_hour)%Z
   /\ EksChecked.main SampleChecked.parser (SampleChecked.max_age 24) w
      = EksChecked.Uncaught EksChecked.TypeError Eks.initial_state 1)
  /\ (let w := Sample.cluster [] [Sample.old_job] Sample.never in
      SampleChecked.parser
        (Eks.replace_Z (Eks.get_or (Eks.creationTimestamp Sample.old_job) ""))
      = Some (Datetime.mk_datetime 1704067200000000 true)
      /\ existsb Eks.is_terminal_type (Eks.conditions_of Sample.old_job) = true
      /\ (Eks.now w - 1704067200000000
          > -80000000 * Eks.microseconds_per_hour)%Z
      /\ EksChecked.main SampleChecked.parser (SampleChecked.max_age (-80000000)) w
         = EksChecked.Uncaught EksChecked.OverflowError Eks.initial_state 1).
Proof.
  cbv zeta. repeat split.
Qed.

(** X18. The exit code is decided by the kubeconfig update, the two
    listings and whether the job scan raises: it is 1 when the update or a
    listing fails, when a listed container is in a problem state, or when
    the job scan raises, and 0 otherwise.  The delete flags, the dry-run
    flag and the results of the delete commands never change it. *)
Theorem exit_code_from_listings_checked
    (fromisoformat : string -> option Datetime.datetime)
    (a : Eks.arguments) (w : Eks.world) :
  EksChecked.exit_code_of (EksChecked.main fromisoformat a w)
  = if Eks.kubeconfig_ok w then
      if EksChecked.job_scan_raises fromisoformat a w then 1%Z
      else
        match Eks.list_pods w, Eks.list_jobs w with
        | Some pods, Some _ =>
            if existsb
                 (fun p => existsb Eks.is_problem (Eks.container_statuses_of p))
                 pods
            then 1%Z else 0%Z
        | _, _ => 1%Z
        end
    else 1%Z.
Proof.
  pose proof (exit_code_from_listings (EksChecked.instant_of fromisoformat) a w)
    as Hsimple.
  unfold EksChecked.main, Eks.main in *.
  destruct (Eks.kubeconfig_ok w); [|reflexivity].
  destruct (checked_scan_cases fromisoformat a w) as [Hok Hbad].
  destruct (EksChecked.job_scan_raises fromisoformat a w).
  - destruct (Hbad eq_refl) as (e & st & ->). reflexivity.
  - rewrite (Hok eq_refl). rewrite <- Hsimple.
    destruct (Eks.nonempty _ || Eks.nonempty _); reflexivity.
Qed.

(** X19. With a longer maximum age, the stale jobs are some of those found
    with a shorter one, in the same order, when both runs return. *)
Theorem longer_max_age_flags_fewer_jobs_checked
    (fromisoformat : string -> option Datetime.datetime)
    (a : Eks.arguments) (w : Eks.world) (shorter longer : Z)
    (st_shorter st_longer : Eks.run_state) :
  (shorter <= longer)%Z ->
  EksChecked.scan fromisoformat (EksReport.with_max_age a shorter) w
    = EksChecked.Returned st_shorter ->
  EksChecked.scan fromisoformat (EksReport.with_max_age a longer) w
    = EksChecked.Returned st_longer ->
  subsequence (Eks.completed_jobs (Eks.report st_longer))
              (Eks.completed_jobs (Eks.report st_shorter)).
Proof.
  intros Hle Hs Hl.
  apply checked_scan_returned in Hs as [_ ->].
  apply checked_scan_returned in Hl as [_ ->].
  now apply longer_max_age_flags_fewer_jobs.
Qed.

Lemma longer_max_age_flags_fewer_jobs_checked_witness :
  subsequence
    (Eks.completed_jobs
       (Eks.report
          (Eks.scan (EksChecked.instant_of SampleChecked.parser)
             (EksReport.with_max_age (SampleChecked.max_age 0) 72)
             (Sample.cluster [] [Sample.old_job] Sample.never))))
    (Eks.completed_jobs
       (Eks.report
          (Eks.scan (EksChecked.instant_of SampleChecked.parser)
             (EksReport.with_max_age (SampleChecked.max_age 0) 24)
             (Sample.cluster [] [Sample.old_job] Sample.never)))).
Proof.
  apply (longer_max_age_flags_fewer_jobs_checked SampleChecked.parser
           (SampleChecked.max_age 0)
           (Sample.cluster [] [Sample.old_job] Sample.never) 24 72).
  - discriminate.
  - reflexivity.
  - reflexivity.
Defined.
